(** * Peripheral-manager facades of the ESP32 C++ library, embedded in Rocq

    The four singleton managers (GPIO, Wi-Fi, ADC, MQTT) only configure
    structs and forward calls to the vendor SDK.  The embedding therefore
    keeps two things apart:

    - the manager object itself (its private fields), a record;
    - the SDK, which is not part of the repository.  Every call the C++
      makes into it is added to a trace, and what the SDK answers is
      read from an environment, a function of the trace so far.

    A method is a computation in the interaction monad [SDK.M]: it reads
    and writes the manager's fields, issues SDK calls, and may stop the
    program ([ESP_ERROR_CHECK] aborts; an array access out of bounds or a
    read of an indeterminate value is undefined behaviour).  Observer
    callbacks supplied by the application are opaque code as well: their
    invocation is recorded in the same trace.  Logging macros ([ESP_LOGI]
    and friends) have no effect on the manager and are left out.

    Part I holds the embedding, one module per source file.  Part II
    holds the properties. *)

From stdpp Require Import base option list gmap.
From Stdlib Require Import ZArith String Ascii DecimalString Lia.

Open Scope Z_scope.

(** * Part I: the embedding *)

(** ** The interaction monad *)

Module SDK.

(** Pointers and handles are addresses; [nullptr] is address 0. *)
Definition ptr := Z.
Definition nullptr : ptr := 0.
Definition is_null (p : ptr) : bool := p =? 0.

(** [esp_err_t] codes used by the sources (esp_err.h, nvs.h). *)
Definition esp_err_t := Z.
Definition ESP_OK : esp_err_t := 0.
Definition ESP_ERR_INVALID_STATE : esp_err_t := 259.
Definition ESP_ERR_NVS_NO_FREE_PAGES : esp_err_t := 4365.
Definition ESP_ERR_NVS_NEW_VERSION_FOUND : esp_err_t := 4368.

(** What one SDK call gives back: its return value, and the value it
    stored through its out-parameter, when it stored one. *)
Record Reply := mkReply { code : Z; written : option Z }.

(** Why a run stopped before the method returned. *)
Inductive Halt := Aborted | Undefined.

Inductive Outcome (A : Type) :=
| Done (a : A)
| Halted (h : Halt).
Arguments Done {A} a.
Arguments Halted {A} h.

Section Interaction.
Context {Call St : Type}.

(** The environment answers a call given the whole trace, newest call
    first; the head of the list is the call being answered. *)
Definition Env := list Call → Reply.

Record World := mkWorld { self : St; trace : list Call }.

Definition M (A : Type) := Env → World → Outcome (A * World).

Definition pure {A} (a : A) : M A := λ _ w, Done (a, w).

Definition bind {A B} (c : M A) (k : A → M B) : M B :=
  λ env w, match c env w with
           | Done (a, w') => k a env w'
           | Halted h => Halted h
           end.

Definition this : M St := λ _ w, Done (self w, w).

Definition modify (f : St → St) : M unit :=
  λ _ w, Done (tt, mkWorld (f (self w)) (trace w)).

Definition sdk (c : Call) : M Reply :=
  λ env w, let tr := c :: trace w in Done (env tr, mkWorld (self w) tr).

Definition halt {A} (h : Halt) : M A := λ _ _, Halted h.

(** [ESP_ERROR_CHECK(x)]: anything but [ESP_OK] calls [abort()]. *)
Definition ESP_ERROR_CHECK (r : Reply) : M unit :=
  if code r =? ESP_OK then pure tt else halt Aborted.

(** Reading a local that the SDK was supposed to fill in. *)
Definition filled (r : Reply) : M Z :=
  match written r with
  | Some v => pure v
  | None => halt Undefined
  end.

Definition when (b : bool) (c : M unit) : M unit :=
  if b then c else pure tt.

End Interaction.

Arguments Env : clear implicits.
Arguments World : clear implicits.
Arguments M : clear implicits.
Arguments mkWorld {Call St} self trace.

#[global] Instance M_ret {Call St} : MRet (M Call St) := @pure Call St.
#[global] Instance M_bind {Call St} : MBind (M Call St) :=
  λ A B k c, bind c k.

(** [keeps P c]: whenever [c] returns, a property of the manager object
    that held before still holds.  This is the shape of an invariant over
    call sequences, where only a run that returns has a successor. *)
Definition keeps {Call St A} (P : St → Prop) (c : M Call St A) : Prop :=
  ∀ env w a w', P (self w) → c env w = Done (a, w') → P (self w').

(** [strncpy(dst, src, n)] into a zeroed buffer, read back as a C string:
    at most [n] characters, stopping at the first NUL. *)
Fixpoint strncpy (n : nat) (src : string) : string :=
  match n, src with
  | S n', String c rest =>
      if Ascii.eqb c Ascii.zero then EmptyString
      else String c (strncpy n' rest)
  | _, _ => EmptyString
  end.

(** [std::string::empty]. *)
Definition empty (s : string) : bool :=
  match s with EmptyString => true | _ => false end.

(** What a C function finds behind [s.c_str()].  A [std::string] may hold
    NUL characters; the C string that starts at the same address ends at
    the first of them. *)
Fixpoint c_string (s : string) : string :=
  match s with
  | String c rest =>
      if Ascii.eqb c Ascii.zero then EmptyString else String c (c_string rest)
  | EmptyString => EmptyString
  end.

(** An integer argument converted to a parameter of type [uint8_t] or
    [uint16_t]: the value modulo 2^8 or 2^16. *)
Definition uint8_t (v : Z) : Z := v mod 256.
Definition uint16_t (v : Z) : Z := v mod 65536.

End SDK.

Import SDK.

(** ** WiFiManager (WiFiManager.hpp, WiFiManager.cpp) *)

Module WiFi.

Inductive WiFiMode := STATION | ACCESS_POINT | BOTH.
Inductive WiFiStatus := DISCONNECTED | CONNECTING | CONNECTED | FAILED.

#[global] Instance WiFiMode_eq_dec : EqDecision WiFiMode.
Proof. solve_decision. Defined.
#[global] Instance WiFiStatus_eq_dec : EqDecision WiFiStatus.
Proof. solve_decision. Defined.

(** [typedef void ( *WiFiEventCallback)(WiFiStatus, void* )]: a function
    pointer, null when no observer is registered. *)
Definition WiFiEventCallback := ptr.

(** The private fields, in declaration order, followed by the file-level
    static [s_wifi_event_group] of WiFiManager.cpp. *)
Record WiFiManager := mkWiFiManager {
  _mode : WiFiMode;
  _status : WiFiStatus;
  _stationSSID : string;
  _stationPassword : string;
  _apSSID : string;
  _apPassword : string;
  _eventCallback : WiFiEventCallback;
  _userCallbackData : ptr;
  _initialized : bool;
  _staNetif : ptr;
  _apNetif : ptr;
  s_wifi_event_group : ptr
}.

(** The constructor's member initialisers. *)
Definition constructed : WiFiManager :=
  mkWiFiManager STATION DISCONNECTED EmptyString EmptyString EmptyString
                EmptyString nullptr nullptr false
                nullptr nullptr nullptr.

Definition set_mode (v : WiFiMode) (m : WiFiManager) : WiFiManager :=
  mkWiFiManager v (_status m) (_stationSSID m) (_stationPassword m)
    (_apSSID m) (_apPassword m) (_eventCallback m) (_userCallbackData m)
    (_initialized m) (_staNetif m) (_apNetif m) (s_wifi_event_group m).
Definition set_status (v : WiFiStatus) (m : WiFiManager) : WiFiManager :=
  mkWiFiManager (_mode m) v (_stationSSID m) (_stationPassword m)
    (_apSSID m) (_apPassword m) (_eventCallback m) (_userCallbackData m)
    (_initialized m) (_staNetif m) (_apNetif m) (s_wifi_event_group m).
Definition set_station (ssid password : string) (m : WiFiManager) : WiFiManager :=
  mkWiFiManager (_mode m) (_status m) ssid password
    (_apSSID m) (_apPassword m) (_eventCallback m) (_userCallbackData m)
    (_initialized m) (_staNetif m) (_apNetif m) (s_wifi_event_group m).
Definition set_ap (ssid password : string) (m : WiFiManager) : WiFiManager :=
  mkWiFiManager (_mode m) (_status m) (_stationSSID m) (_stationPassword m)
    ssid password (_eventCallback m) (_userCallbackData m)
    (_initialized m) (_staNetif m) (_apNetif m) (s_wifi_event_group m).
Definition set_callback (cb : WiFiEventCallback) (data : ptr) (m : WiFiManager)
  : WiFiManager :=
  mkWiFiManager (_mode m) (_status m) (_stationSSID m) (_stationPassword m)
    (_apSSID m) (_apPassword m) cb data
    (_initialized m) (_staNetif m) (_apNetif m) (s_wifi_event_group m).
Definition set_initialized (v : bool) (m : WiFiManager) : WiFiManager :=
  mkWiFiManager (_mode m) (_status m) (_stationSSID m) (_stationPassword m)
    (_apSSID m) (_apPassword m) (_eventCallback m) (_userCallbackData m)
    v (_staNetif m) (_apNetif m) (s_wifi_event_group m).
Definition set_staNetif (v : ptr) (m : WiFiManager) : WiFiManager :=
  mkWiFiManager (_mode m) (_status m) (_stationSSID m) (_stationPassword m)
    (_apSSID m) (_apPassword m) (_eventCallback m) (_userCallbackData m)
    (_initialized m) v (_apNetif m) (s_wifi_event_group m).
Definition set_apNetif (v : ptr) (m : WiFiManager) : WiFiManager :=
  mkWiFiManager (_mode m) (_status m) (_stationSSID m) (_stationPassword m)
    (_apSSID m) (_apPassword m) (_eventCallback m) (_userCallbackData m)
    (_initialized m) (_staNetif m) v (s_wifi_event_group m).
Definition set_event_group (v : ptr) (m : WiFiManager) : WiFiManager :=
  mkWiFiManager (_mode m) (_status m) (_stationSSID m) (_stationPassword m)
    (_apSSID m) (_apPassword m) (_eventCallback m) (_userCallbackData m)
    (_initialized m) (_staNetif m) (_apNetif m) v.

(** *** The SDK as the manager sees it *)

Inductive wifi_mode_t := WIFI_MODE_NULL | WIFI_MODE_STA | WIFI_MODE_AP | WIFI_MODE_APSTA.
Inductive wifi_interface_t := WIFI_IF_STA | WIFI_IF_AP.
Inductive wifi_auth_mode_t := WIFI_AUTH_OPEN | WIFI_AUTH_WPA2_PSK.

(** The members of [wifi_config_t] that the manager fills in; the rest of
    the union stays zero.  [ssid] is [uint8_t[32]], [password] is
    [uint8_t[64]], [ssid_len] is [uint8_t]. *)
Record wifi_ap_config_t := mkApConfig {
  ap_ssid : string;
  ap_ssid_len : Z;
  ap_password : string;
  ap_authmode : wifi_auth_mode_t;
  ap_max_connection : Z;
  ap_channel : Z
}.
Record wifi_sta_config_t := mkStaConfig {
  sta_ssid : string;
  sta_password : string
}.
Inductive wifi_config_t :=
| ap (c : wifi_ap_config_t)
| sta (c : wifi_sta_config_t).

(** Events the handler tells apart, by base and id. *)
Inductive esp_event :=
| WIFI_EVENT_STA_START
| WIFI_EVENT_STA_DISCONNECTED
| WIFI_EVENT_AP_STACONNECTED
| WIFI_EVENT_AP_STADISCONNECTED
| WIFI_EVENT_other (id : Z)
| IP_EVENT_STA_GOT_IP
| IP_EVENT_other (id : Z)
| other_base (id : Z).

Inductive registration := WIFI_EVENT_ANY_ID | IP_EVENT_GOT_IP.

Inductive Call :=
| nvs_flash_init
| nvs_flash_erase
| esp_event_loop_create_default
| esp_netif_init
| xEventGroupCreate
| esp_netif_create_default_wifi_sta
| esp_netif_create_default_wifi_ap
| esp_wifi_init
| esp_event_handler_register (what : registration)
| esp_netif_set_hostname (netif : ptr) (hostname : string)
| esp_wifi_set_config (ifx : wifi_interface_t) (conf : wifi_config_t)
| esp_wifi_set_mode (mode : wifi_mode_t)
| esp_wifi_get_mode
| esp_wifi_start
| esp_wifi_stop
| esp_wifi_connect
| esp_wifi_scan_start
| esp_wifi_scan_get_ap_records (number : Z)
| esp_netif_get_ip_info (netif : ptr)
| xEventGroupWaitBits (group : ptr) (bits : Z) (ticks : Z)
| xEventGroupClearBits (group : ptr) (bits : Z)
| xEventGroupSetBits (group : ptr) (bits : Z)
| eventCallback (cb : WiFiEventCallback) (status : WiFiStatus) (userData : ptr).

Definition WIFI_CONNECTED_BIT : Z := 1.
Definition WIFI_FAIL_BIT : Z := 2.

Abbreviation Method := (M Call WiFiManager).

(** *** Methods *)

Definition init : Method bool :=
  m ← this;
  if _initialized m then mret true else
  r ← sdk nvs_flash_init;
  r ← (if (code r =? ESP_ERR_NVS_NO_FREE_PAGES)
          || (code r =? ESP_ERR_NVS_NEW_VERSION_FOUND)
       then e ← sdk nvs_flash_erase; ESP_ERROR_CHECK e;; sdk nvs_flash_init
       else mret r);
  ESP_ERROR_CHECK r;;
  e ← sdk esp_event_loop_create_default; ESP_ERROR_CHECK e;;
  e ← sdk esp_netif_init; ESP_ERROR_CHECK e;;
  g ← sdk xEventGroupCreate;
  modify (set_event_group (code g));;
  if is_null (code g) then mret false else
  s ← sdk esp_netif_create_default_wifi_sta;
  modify (set_staNetif (code s));;
  a ← sdk esp_netif_create_default_wifi_ap;
  modify (set_apNetif (code a));;
  if is_null (code s) || is_null (code a) then mret false else
  e ← sdk esp_wifi_init; ESP_ERROR_CHECK e;;
  e ← sdk (esp_event_handler_register WIFI_EVENT_ANY_ID); ESP_ERROR_CHECK e;;
  e ← sdk (esp_event_handler_register IP_EVENT_GOT_IP); ESP_ERROR_CHECK e;;
  modify (set_initialized true);;
  mret true.

(** The guard [!_initialized && !init()] that opens most methods: [true]
    when the method goes on. *)
Definition initialized_or_init : Method bool :=
  m ← this;
  if _initialized m then mret true else init.

Definition configureStation (ssid password hostname : string) : Method bool :=
  ok ← initialized_or_init;
  if negb ok then mret false else
  modify (set_station ssid password);;
  when (negb (empty hostname))
       (m ← this;
        _ ← sdk (esp_netif_set_hostname (_staNetif m) (c_string hostname));
        mret tt);;
  modify (λ m, set_mode (if decide (_mode m = ACCESS_POINT) then BOTH else STATION) m);;
  mret true.

Definition configureAP (ssid password : string) (channel maxConnections : Z)
  : Method bool :=
  let channel := uint8_t channel in
  let maxConnections := uint8_t maxConnections in
  ok ← initialized_or_init;
  if negb ok then mret false else
  modify (set_ap ssid password);;
  modify (λ m, set_mode (if decide (_mode m = STATION) then BOTH else ACCESS_POINT) m);;
  let wifi_config :=
    mkApConfig (strncpy 31 ssid)
               (uint8_t (Z.of_nat (String.length ssid)))
               (if empty password then EmptyString else strncpy 63 password)
               (if empty password then WIFI_AUTH_OPEN else WIFI_AUTH_WPA2_PSK)
               maxConnections channel in
  e ← sdk (esp_wifi_set_config WIFI_IF_AP (ap wifi_config)); ESP_ERROR_CHECK e;;
  mret true.

Definition has_station (mode : WiFiMode) : bool :=
  bool_decide (mode = STATION) || bool_decide (mode = BOTH).

Definition start : Method bool :=
  ok ← initialized_or_init;
  if negb ok then mret false else
  m ← this;
  let mode := match _mode m with
              | STATION => WIFI_MODE_STA
              | ACCESS_POINT => WIFI_MODE_AP
              | BOTH => WIFI_MODE_APSTA
              end in
  e ← sdk (esp_wifi_set_mode mode); ESP_ERROR_CHECK e;;
  when (has_station (_mode m))
       (e ← sdk (esp_wifi_set_config WIFI_IF_STA
                   (sta (mkStaConfig (strncpy 31 (_stationSSID m))
                                     (strncpy 63 (_stationPassword m)))));
        ESP_ERROR_CHECK e);;
  e ← sdk esp_wifi_start; ESP_ERROR_CHECK e;;
  when (has_station (_mode m))
       (e ← sdk esp_wifi_connect; ESP_ERROR_CHECK e;;
        modify (set_status CONNECTING));;
  mret true.

Definition stop : Method bool :=
  m ← this;
  if negb (_initialized m) then mret true else
  err ← sdk esp_wifi_stop;
  if negb (code err =? ESP_OK) then mret false else
  modify (set_status DISCONNECTED);;
  mret true.

Definition getStatus : Method WiFiStatus :=
  m ← this; mret (_status m).

Definition setEventCallback (callback : WiFiEventCallback) (userData : ptr)
  : Method unit :=
  modify (set_callback callback userData).

(** [snprintf(ip_str, 16, IPSTR, IP2STR(&ip))]: the four bytes of the
    address in memory order, in decimal, separated by dots. *)
Definition octet (ip : Z) (i : Z) : string :=
  NilZero.string_of_uint (N.to_uint (Z.to_N ((ip / 256 ^ i) mod 256))).
Definition ip4_to_string (ip : Z) : string :=
  (octet ip 0 ++ "." ++ octet ip 1 ++ "." ++ octet ip 2 ++ "." ++ octet ip 3)%string.

Definition getIPAddress : Method string :=
  m ← this;
  if negb (bool_decide (_status m = CONNECTED)) then mret EmptyString else
  r ← sdk (esp_netif_get_ip_info (_staNetif m));
  ip ← filled r;
  mret (ip4_to_string ip).

Definition getAPIPAddress : Method string :=
  m ← this;
  if negb (bool_decide (_mode m = ACCESS_POINT))
     && negb (bool_decide (_mode m = BOTH)) then mret EmptyString else
  r ← sdk (esp_netif_get_ip_info (_apNetif m));
  ip ← filled r;
  mret (ip4_to_string ip).

Section Ticks.
(** [portTICK_PERIOD_MS] comes from the FreeRTOS configuration. *)
Variable portTICK_PERIOD_MS : Z.

Definition waitForConnection (timeoutMs : Z) : Method bool :=
  m ← this;
  if negb (bool_decide (_mode m = STATION)) && negb (bool_decide (_mode m = BOTH))
  then mret false else
  r ← sdk (xEventGroupWaitBits (s_wifi_event_group m)
             (Z.lor WIFI_CONNECTED_BIT WIFI_FAIL_BIT)
             (timeoutMs / portTICK_PERIOD_MS));
  let bits := code r in
  if negb (Z.land bits WIFI_CONNECTED_BIT =? 0) then mret true
  else if negb (Z.land bits WIFI_FAIL_BIT =? 0) then mret false
  else mret false.
End Ticks.

(** A scan record is named by its position in the list the SDK filled. *)
Definition wifi_ap_record_t := nat.

Definition scanNetworks (maxResults : Z) : Method (list wifi_ap_record_t) :=
  let maxResults := uint16_t maxResults in
  ok ← initialized_or_init;
  if negb ok then mret [] else
  r ← sdk esp_wifi_get_mode;
  currentMode ← filled r;
  when (currentMode =? 0)
       (_ ← sdk (esp_wifi_set_mode WIFI_MODE_STA); _ ← sdk esp_wifi_start; mret tt);;
  let number := maxResults in
  err ← sdk esp_wifi_scan_start;
  results ←
    (if code err =? ESP_OK then
       err ← sdk (esp_wifi_scan_get_ap_records number);
       if code err =? ESP_OK then
         let number' := default number (written err) in
         if number <? number' then halt Undefined
         else mret (seq 0 (Z.to_nat number'))
       else mret []
     else mret []);
  when (currentMode =? 0) (_ ← sdk esp_wifi_stop; mret tt);;
  mret results.

(** Notify the observer, if one is registered. *)
Definition notify (status : WiFiStatus) : Method unit :=
  m ← this;
  when (negb (is_null (_eventCallback m)))
       (_ ← sdk (eventCallback (_eventCallback m) status (_userCallbackData m));
        mret tt).

(** The handler is registered with [this] as its argument, so [self] is
    the manager itself; [eventData] is only logged. *)
Definition wifiEventHandler (event : esp_event) : Method unit :=
  match event with
  | WIFI_EVENT_STA_START =>
      _ ← sdk esp_wifi_connect;
      modify (set_status CONNECTING)
  | WIFI_EVENT_STA_DISCONNECTED =>
      modify (set_status DISCONNECTED);;
      _ ← sdk esp_wifi_connect;
      m ← this;
      _ ← sdk (xEventGroupClearBits (s_wifi_event_group m) WIFI_CONNECTED_BIT);
      _ ← sdk (xEventGroupSetBits (s_wifi_event_group m) WIFI_FAIL_BIT);
      notify DISCONNECTED
  | IP_EVENT_STA_GOT_IP =>
      modify (set_status CONNECTED);;
      m ← this;
      _ ← sdk (xEventGroupSetBits (s_wifi_event_group m) WIFI_CONNECTED_BIT);
      notify CONNECTED
  | WIFI_EVENT_AP_STACONNECTED | WIFI_EVENT_AP_STADISCONNECTED
  | WIFI_EVENT_other _ | IP_EVENT_other _ | other_base _ => mret tt
  end.

(** *** Everything that can happen to the manager

    The public methods, and the event handler run by the SDK's event
    loop.  An observer runs as the last statement of the handler, so a
    public method it calls is the next step of the sequence. *)
Inductive Action :=
| do_init
| do_configureStation (ssid password hostname : string)
| do_configureAP (ssid password : string) (channel maxConnections : Z)
| do_start
| do_stop
| do_getStatus
| do_getIPAddress
| do_getAPIPAddress
| do_setEventCallback (callback : WiFiEventCallback) (userData : ptr)
| do_waitForConnection (portTICK_PERIOD_MS timeoutMs : Z)
| do_scanNetworks (maxResults : Z)
| on_event (event : esp_event).

Definition perform (a : Action) : Method unit :=
  match a with
  | do_init => _ ← init; mret tt
  | do_configureStation s p h => _ ← configureStation s p h; mret tt
  | do_configureAP s p c n => _ ← configureAP s p c n; mret tt
  | do_start => _ ← start; mret tt
  | do_stop => _ ← stop; mret tt
  | do_getStatus => _ ← getStatus; mret tt
  | do_getIPAddress => _ ← getIPAddress; mret tt
  | do_getAPIPAddress => _ ← getAPIPAddress; mret tt
  | do_setEventCallback cb d => setEventCallback cb d
  | do_waitForConnection tick t => _ ← waitForConnection tick t; mret tt
  | do_scanNetworks n => _ ← scanNetworks n; mret tt
  | on_event e => wifiEventHandler e
  end.

(** Run a list of actions, oldest first; [None] when one of them halts.
    The worlds an application can bring about are the results of [run]
    from the constructed singleton with an empty trace. *)
Fixpoint run (env : Env Call) (actions : list Action) (w : World Call WiFiManager)
  : option (World Call WiFiManager) :=
  match actions with
  | [] => Some w
  | a :: rest =>
      match perform a env w with
      | Done (_, w') => run env rest w'
      | Halted _ => None
      end
  end.

Definition fresh : World Call WiFiManager := mkWorld constructed [].

Definition status_ok (m : WiFiManager) : Prop := _status m ≠ FAILED.

(** What the application configured, as opposed to the handles that
    [init] fills in. *)
Definition settings (m : WiFiManager) :=
  (_mode m, _status m, _stationSSID m, _stationPassword m, _apSSID m, _apPassword m).

(** An SDK in which every call succeeds: handles are non-null (the address
    tells them apart), the radio is idle, and no event bit is set. *)
Definition healthy : Env Call := λ tr,
  match tr with
  | xEventGroupCreate :: _ => mkReply 1073412096 None
  | esp_netif_create_default_wifi_sta :: _ => mkReply 1073412352 None
  | esp_netif_create_default_wifi_ap :: _ => mkReply 1073412608 None
  | _ => mkReply ESP_OK (Some 0)
  end.

End WiFi.

(** ** MqttClient (MqttClient.hpp, MqttClient.cpp) *)

Module MQTT.

Inductive MqttStatus := DISCONNECTED | CONNECTING | CONNECTED | ERROR.

#[global] Instance MqttStatus_eq_dec : EqDecision MqttStatus.
Proof. solve_decision. Defined.

(** [typedef void ( *MqttEventCallback)(esp_mqtt_event_handle_t, void* )]. *)
Definition MqttEventCallback := ptr.

(** The [const char*] members of the configuration do not own their
    text: they point into a [std::string] of the manager, or into the
    buffer of an argument passed by reference. *)
Inductive c_str :=
| null_str
| brokerUri_c_str
| clientId_c_str
| willTopic_c_str
| willPayload_c_str
| arg_c_str (s : string).

(** The members of [esp_mqtt_client_config_t] that [configure] assigns,
    named by their path in the struct; all others stay zero. *)
Record esp_mqtt_client_config_t := mkConfig {
  broker_address_uri : c_str;
  credentials_client_id : c_str;
  credentials_username : c_str;
  credentials_authentication_password : c_str;
  session_keepalive : Z;
  session_disable_clean_session : bool;
  session_last_will_topic : c_str;
  session_last_will_msg : c_str;
  session_last_will_qos : Z;
  session_last_will_retain : Z
}.

(** [memset(&_config, 0, sizeof(_config))], also the value of [_config({})]. *)
Definition zeroed : esp_mqtt_client_config_t :=
  mkConfig null_str null_str null_str null_str 0 false null_str null_str 0 0.

Record MqttClient := mkMqttClient {
  _client : ptr;
  _config : esp_mqtt_client_config_t;
  _status : MqttStatus;
  _userCallback : MqttEventCallback;
  _userData : ptr;
  _brokerUri : string;
  _clientId : string;
  _willTopic : string;
  _willPayload : string;
  _willQos : Z;
  _willRetain : bool
}.

Definition constructed : MqttClient :=
  mkMqttClient nullptr zeroed DISCONNECTED nullptr nullptr
               EmptyString EmptyString EmptyString EmptyString 0 false.

Definition set_client (v : ptr) (m : MqttClient) : MqttClient :=
  mkMqttClient v (_config m) (_status m) (_userCallback m) (_userData m)
    (_brokerUri m) (_clientId m) (_willTopic m) (_willPayload m) (_willQos m)
    (_willRetain m).
Definition set_config (v : esp_mqtt_client_config_t) (m : MqttClient) : MqttClient :=
  mkMqttClient (_client m) v (_status m) (_userCallback m) (_userData m)
    (_brokerUri m) (_clientId m) (_willTopic m) (_willPayload m) (_willQos m)
    (_willRetain m).
Definition set_status (v : MqttStatus) (m : MqttClient) : MqttClient :=
  mkMqttClient (_client m) (_config m) v (_userCallback m) (_userData m)
    (_brokerUri m) (_clientId m) (_willTopic m) (_willPayload m) (_willQos m)
    (_willRetain m).
Definition set_callback (cb : MqttEventCallback) (data : ptr) (m : MqttClient)
  : MqttClient :=
  mkMqttClient (_client m) (_config m) (_status m) cb data
    (_brokerUri m) (_clientId m) (_willTopic m) (_willPayload m) (_willQos m)
    (_willRetain m).
Definition set_broker (uri clientId : string) (m : MqttClient) : MqttClient :=
  mkMqttClient (_client m) (_config m) (_status m) (_userCallback m) (_userData m)
    uri clientId (_willTopic m) (_willPayload m) (_willQos m) (_willRetain m).
Definition set_will (topic payload : string) (qos : Z) (retain : bool)
    (m : MqttClient) : MqttClient :=
  mkMqttClient (_client m) (_config m) (_status m) (_userCallback m) (_userData m)
    (_brokerUri m) (_clientId m) topic payload qos retain.

(** *** The SDK as the manager sees it *)

(** What [esp_mqtt_client_init] finds when it follows the pointers of the
    configuration it is handed: each is a [c_str()], so the text it reads
    ends at the first NUL of the [std::string] behind it.  The SDK
    duplicates these texts into the client it creates, so the session is
    made from the values read at the time of the call. *)
Record request := mkRequest {
  uri : option string;
  client_id : option string;
  username : option string;
  password : option string;
  keepalive : Z;
  disable_clean_session : bool;
  last_will_topic : option string;
  last_will_msg : option string;
  last_will_qos : Z;
  last_will_retain : Z
}.

Definition deref (m : MqttClient) (p : c_str) : option string :=
  match p with
  | null_str => None
  | brokerUri_c_str => Some (c_string (_brokerUri m))
  | clientId_c_str => Some (c_string (_clientId m))
  | willTopic_c_str => Some (c_string (_willTopic m))
  | willPayload_c_str => Some (c_string (_willPayload m))
  | arg_c_str s => Some (c_string s)
  end.

Definition read (m : MqttClient) (c : esp_mqtt_client_config_t) : request :=
  mkRequest (deref m (broker_address_uri c))
            (deref m (credentials_client_id c))
            (deref m (credentials_username c))
            (deref m (credentials_authentication_password c))
            (session_keepalive c)
            (session_disable_clean_session c)
            (deref m (session_last_will_topic c))
            (deref m (session_last_will_msg c))
            (session_last_will_qos c)
            (session_last_will_retain c).

Inductive esp_mqtt_event_id_t :=
| MQTT_EVENT_BEFORE_CONNECT
| MQTT_EVENT_CONNECTED
| MQTT_EVENT_DISCONNECTED
| MQTT_EVENT_SUBSCRIBED
| MQTT_EVENT_UNSUBSCRIBED
| MQTT_EVENT_PUBLISHED
| MQTT_EVENT_DATA
| MQTT_EVENT_ERROR
| MQTT_EVENT_other (id : Z).

(** The payload handed to [esp_mqtt_client_publish]: the C string behind
    a [std::string], or a caller's byte buffer. *)
Inductive payload :=
| text (s : string)
| bytes (data : ptr).

(** The last entry is the observer being invoked.  Its final component
    is not an argument: it is the status the manager holds while the
    observer runs, which is what [getStatus()] gives an observer that
    asks. *)
Inductive Call :=
| esp_mqtt_client_init (config : request)
| esp_mqtt_client_register_event (client : ptr)
| esp_mqtt_client_start (client : ptr)
| esp_mqtt_client_stop (client : ptr)
| esp_mqtt_client_publish (client : ptr) (topic : string) (data : payload)
                          (len qos : Z) (retain : bool)
| esp_mqtt_client_subscribe_single (client : ptr) (topic : string) (qos : Z)
| esp_mqtt_client_unsubscribe (client : ptr) (topic : string)
| userCallback (cb : MqttEventCallback) (event : ptr) (userData : ptr)
               (status : MqttStatus).

Abbreviation Method := (M Call MqttClient).

(** *** Methods *)

Definition init : Method bool := mret true.

Definition configure (uri clientId username password : string)
    (keepalive : Z) (cleanSession : bool) : Method bool :=
  modify (set_broker uri clientId);;
  m ← this;
  let with_credentials :=
    mkConfig brokerUri_c_str clientId_c_str
      (if negb (empty username) then arg_c_str username else null_str)
      (if negb (empty password) then arg_c_str password else null_str)
      keepalive cleanSession null_str null_str 0 0 in
  let config :=
    if negb (empty (_willTopic m)) then
      mkConfig (broker_address_uri with_credentials)
               (credentials_client_id with_credentials)
               (credentials_username with_credentials)
               (credentials_authentication_password with_credentials)
               (session_keepalive with_credentials)
               (session_disable_clean_session with_credentials)
               willTopic_c_str willPayload_c_str (_willQos m)
               (Z.b2z (_willRetain m))
    else with_credentials in
  modify (set_config config);;
  h ← sdk (esp_mqtt_client_init (read m config));
  modify (set_client (code h));;
  if is_null (code h) then
    modify (set_status ERROR);; mret false
  else
    _ ← sdk (esp_mqtt_client_register_event (code h));
    modify (set_status DISCONNECTED);;
    mret true.

Definition setWill (topic payload : string) (qos : Z) (retain : bool)
  : Method unit :=
  modify (set_will topic payload qos retain).

Definition connect : Method bool :=
  m ← this;
  if is_null (_client m) then mret false else
  err ← sdk (esp_mqtt_client_start (_client m));
  if code err =? ESP_OK then modify (set_status CONNECTING);; mret true
  else modify (set_status ERROR);; mret false.

Definition disconnect : Method bool :=
  m ← this;
  if is_null (_client m) then mret false else
  err ← sdk (esp_mqtt_client_stop (_client m));
  if code err =? ESP_OK then modify (set_status DISCONNECTED);; mret true
  else mret false.

(** [publish(topic, payload, qos, retain)]: the text overload passes
    [c_str()] pointers and length 0, and lets the SDK measure the text. *)
Definition publish (topic payload : string) (qos : Z) (retain : bool)
  : Method Z :=
  m ← this;
  if is_null (_client m) then mret (-1) else
  r ← sdk (esp_mqtt_client_publish (_client m) (c_string topic)
             (text (c_string payload)) 0 qos retain);
  mret (code r).

(** [publish(topic, data, len, qos, retain)], the binary overload. *)
Definition publish_binary (topic : string) (data : ptr) (len qos : Z)
    (retain : bool) : Method Z :=
  m ← this;
  if is_null (_client m) then mret (-1) else
  r ← sdk (esp_mqtt_client_publish (_client m) (c_string topic) (bytes data)
             len qos retain);
  mret (code r).

Definition subscribe (topic : string) (qos : Z) : Method Z :=
  m ← this;
  if is_null (_client m) then mret (-1) else
  r ← sdk (esp_mqtt_client_subscribe_single (_client m) (c_string topic) qos);
  mret (code r).

Definition unsubscribe (topic : string) : Method Z :=
  m ← this;
  if is_null (_client m) then mret (-1) else
  r ← sdk (esp_mqtt_client_unsubscribe (_client m) (c_string topic));
  mret (code r).

Definition setEventCallback (callback : MqttEventCallback) (user_data : ptr)
  : Method unit :=
  modify (set_callback callback user_data).

Definition getStatus : Method MqttStatus := m ← this; mret (_status m).
Definition getBrokerUri : Method string := m ← this; mret (_brokerUri m).
Definition getClientId : Method string := m ← this; mret (_clientId m).

(** The handler is registered with [this], so [self] is the manager; the
    switch is on the [eventId] argument, [event] is passed on untouched. *)
Definition eventHandlerCb (eventId : esp_mqtt_event_id_t) (event : ptr)
  : Method unit :=
  match eventId with
  | MQTT_EVENT_BEFORE_CONNECT => modify (set_status CONNECTING)
  | MQTT_EVENT_CONNECTED => modify (set_status CONNECTED)
  | MQTT_EVENT_DISCONNECTED => modify (set_status DISCONNECTED)
  | MQTT_EVENT_ERROR => modify (set_status ERROR)
  | MQTT_EVENT_SUBSCRIBED | MQTT_EVENT_UNSUBSCRIBED | MQTT_EVENT_PUBLISHED
  | MQTT_EVENT_DATA | MQTT_EVENT_other _ => mret tt
  end;;
  m ← this;
  when (negb (is_null (_userCallback m)))
       (_ ← sdk (userCallback (_userCallback m) event (_userData m) (_status m));
        mret tt).

(** *** Reading a session back from the trace *)

(** The request of the most recent [esp_mqtt_client_init]: the session
    the SDK holds.  Nothing else the manager calls takes a request. *)
Fixpoint established (tr : list Call) : option request :=
  match tr with
  | [] => None
  | esp_mqtt_client_init config :: _ => Some config
  | _ :: older => established older
  end.

(** The last-will part of a request: topic, message, QoS and retain. *)
Definition last_will (r : request) : option string * option string * Z * Z :=
  (last_will_topic r, last_will_msg r, last_will_qos r, last_will_retain r).

(** The last-will fields as [setWill] stored them in the manager, the two
    texts as a reader of their [c_str()] finds them. *)
Definition stored_will (m : MqttClient) : option string * option string * Z * Z :=
  (Some (c_string (_willTopic m)), Some (c_string (_willPayload m)),
   _willQos m, Z.b2z (_willRetain m)).

(** A request with every last-will member zero asks for no last will. *)
Definition no_will : option string * option string * Z * Z := (None, None, 0, 0).

(** The broker layer starts a clean session unless the request disables it. *)
Definition clean_session_requested (r : request) : bool :=
  negb (disable_clean_session r).

(** The specification's table of status transitions, to compare the
    handler with: BeforeConnect gives Connecting, Connected gives
    Connected, Disconnected gives Disconnected, Error gives Error, and
    every other event leaves the status as it was. *)
Definition status_after (eventId : esp_mqtt_event_id_t) (before : MqttStatus)
  : MqttStatus :=
  match eventId with
  | MQTT_EVENT_BEFORE_CONNECT => CONNECTING
  | MQTT_EVENT_CONNECTED => CONNECTED
  | MQTT_EVENT_DISCONNECTED => DISCONNECTED
  | MQTT_EVENT_ERROR => ERROR
  | _ => before
  end.

(** *** Everything that can happen to the manager

    The public methods as the C wrappers export them ([bool] results
    become 1 or 0; [void] and the two text getters give 0 here), and the
    event handler. *)
Inductive Action :=
| do_init
| do_configure (uri clientId username password : string) (keepalive : Z)
               (cleanSession : bool)
| do_setWill (topic payload : string) (qos : Z) (retain : bool)
| do_connect
| do_disconnect
| do_publish (topic payload : string) (qos : Z) (retain : bool)
| do_publish_binary (topic : string) (data : ptr) (len qos : Z) (retain : bool)
| do_subscribe (topic : string) (qos : Z)
| do_unsubscribe (topic : string)
| do_setEventCallback (callback : MqttEventCallback) (user_data : ptr)
| do_getStatus
| do_getBrokerUri
| do_getClientId
| on_event (eventId : esp_mqtt_event_id_t) (event : ptr).

Definition status_code (s : MqttStatus) : Z :=
  match s with DISCONNECTED => 0 | CONNECTING => 1 | CONNECTED => 2 | ERROR => 3 end.

Definition perform (a : Action) : Method Z :=
  match a with
  | do_init => b ← init; mret (Z.b2z b)
  | do_configure u c n p k s => b ← configure u c n p k s; mret (Z.b2z b)
  | do_setWill t p q r => setWill t p q r;; mret 0
  | do_connect => b ← connect; mret (Z.b2z b)
  | do_disconnect => b ← disconnect; mret (Z.b2z b)
  | do_publish t p q r => publish t p q r
  | do_publish_binary t d l q r => publish_binary t d l q r
  | do_subscribe t q => subscribe t q
  | do_unsubscribe t => unsubscribe t
  | do_setEventCallback cb d => setEventCallback cb d;; mret 0
  | do_getStatus => s ← getStatus; mret (status_code s)
  | do_getBrokerUri => _ ← getBrokerUri; mret 0
  | do_getClientId => _ ← getClientId; mret 0
  | on_event i e => eventHandlerCb i e;; mret 0
  end.

(** Run a list of actions, oldest first, and keep what each returned
    (newest first). *)
Fixpoint run (env : Env Call) (actions : list Action)
    (done : list (Action * Z)) (w : World Call MqttClient)
  : option (list (Action * Z) * World Call MqttClient) :=
  match actions with
  | [] => Some (done, w)
  | a :: rest =>
      match perform a env w with
      | Done (r, w') => run env rest ((a, r) :: done) w'
      | Halted _ => None
      end
  end.

Definition fresh : World Call MqttClient := mkWorld constructed [].

(** The manager holds no client handle. *)
Definition unconfigured (m : MqttClient) : Prop := _client m = nullptr.

(** [configure] succeeded at some point of a history. *)
Definition configured (entry : Action * Z) : bool :=
  match entry with
  | (do_configure _ _ _ _ _ _, r) => negb (r =? 0)
  | _ => false
  end.

(** A broker layer that creates clients and accepts every call, giving
    message id 1; and one that cannot create a client. *)
Definition healthy : Env Call := λ tr,
  match tr with
  | esp_mqtt_client_init _ :: _ => mkReply 1073500000 None
  | esp_mqtt_client_publish _ _ _ _ _ _ :: _ => mkReply 1 None
  | esp_mqtt_client_subscribe_single _ _ _ :: _ => mkReply 1 None
  | esp_mqtt_client_unsubscribe _ _ :: _ => mkReply 1 None
  | _ => mkReply ESP_OK None
  end.

Definition out_of_memory : Env Call := λ tr,
  match tr with
  | esp_mqtt_client_init _ :: _ => mkReply nullptr None
  | _ => healthy tr
  end.

End MQTT.

(** ** GpioManager (GpioManager.hpp, GpioManager.cpp) *)

Module GPIO.

(** [#define GPIO_NUM_MAX 40]: the length of the callback table. *)
Definition GPIO_NUM_MAX : Z := 40.

(** The SDK's [gpio_mode_t] values the manager can ask for. *)
Inductive gpio_mode_t :=
| GPIO_MODE_DISABLE
| GPIO_MODE_INPUT
| GPIO_MODE_OUTPUT
| GPIO_MODE_INPUT_OUTPUT_OD.

(** [enum class PinMode]: [INPUT_PULLUP] and [INPUT_PULLDOWN] are given
    the value of [INPUT], so they are the same enumerator value. *)
Inductive PinMode := DISABLED | INPUT | OUTPUT.
Definition INPUT_PULLUP : PinMode := INPUT.
Definition INPUT_PULLDOWN : PinMode := INPUT.

Inductive InterruptTrigger := NONE | RISING | FALLING | BOTH.

#[global] Instance InterruptTrigger_eq_dec : EqDecision InterruptTrigger.
Proof. solve_decision. Defined.

(** [enum class DriveStrength]: [DEFAULT] has the value of
    [GPIO_DRIVE_CAP_DEFAULT], which the SDK defines as capability 2. *)
Inductive DriveStrength := _0 | _1 | _2 | _3.
Definition DEFAULT : DriveStrength := _2.

(** [std::function<void(int, int)>]: empty, or some callable.  Callables
    are opaque application code, told apart by a number. *)
Definition GpioCallback := option Z.

Record PinConfig := mkPinConfig { cb : GpioCallback }.

Record GpioManager := mkGpioManager {
  _configs : list PinConfig;
  _initialized : bool
}.

(** The constructor zeroes the table: every entry is the empty function. *)
Definition constructed : GpioManager :=
  mkGpioManager (replicate (Z.to_nat GPIO_NUM_MAX) (mkPinConfig None)) false.

Definition set_initialized (v : bool) (m : GpioManager) : GpioManager :=
  mkGpioManager (_configs m) v.
Definition set_cb (pin : Z) (callback : GpioCallback) (m : GpioManager)
  : GpioManager :=
  mkGpioManager (<[Z.to_nat pin := mkPinConfig callback]> (_configs m))
                (_initialized m).

(** [pin] indexes an element of [_configs]. *)
Definition in_table (pin : Z) : bool := (0 <=? pin) && (pin <? GPIO_NUM_MAX).

(** *** The SDK as the manager sees it *)

Record gpio_config_t := mkGpioConfig {
  pin_bit_mask : Z;
  mode : gpio_mode_t;
  pull_up_en : bool;
  pull_down_en : bool;
  intr_type : InterruptTrigger
}.

(** The last entry is a registered callable being invoked. *)
Inductive Call :=
| gpio_install_isr_service (flags : Z)
| gpio_config (io_conf : gpio_config_t)
| gpio_set_drive_capability (pin : Z) (strength : DriveStrength)
| gpio_isr_handler_add (pin : Z) (arg : Z)
| gpio_set_level (pin : Z) (level : Z)
| gpio_get_level (pin : Z)
| gpio_reset_pin (pin : Z)
| callback (f : Z) (gpio_num level : Z).

Abbreviation Method := (M Call GpioManager).

(** *** Methods *)

Definition init : Method bool :=
  m ← this;
  when (negb (_initialized m))
       (r ← sdk (gpio_install_isr_service 0);
        when (code r =? ESP_OK) (modify (set_initialized true)));;
  m ← this;
  mret (_initialized m).

Definition to_gpio_mode (mode : PinMode) : gpio_mode_t :=
  match mode with
  | DISABLED => GPIO_MODE_DISABLE
  | INPUT => GPIO_MODE_INPUT
  | OUTPUT => GPIO_MODE_OUTPUT
  end.

(** The request [configurePin] builds.  [1ULL << pin] is a shift of a
    64-bit value, defined for 0 <= pin < 64 only. *)
Definition request (pin : Z) (mode : PinMode) (pull_up pull_down : bool)
    (intr : InterruptTrigger) (open_drain : bool) : gpio_config_t :=
  mkGpioConfig (Z.shiftl 1 pin)
               (if open_drain then GPIO_MODE_INPUT_OUTPUT_OD else to_gpio_mode mode)
               pull_up pull_down intr.

Definition configurePin (pin : Z) (mode : PinMode) (pull_up pull_down : bool)
    (intr : InterruptTrigger) (callback : GpioCallback) (open_drain : bool)
    (drive : DriveStrength) : Method bool :=
  m ← this;
  when (negb (_initialized m)) (_ ← init; mret tt);;
  if negb ((0 <=? pin) && (pin <? 64)) then halt Undefined else
  r ← sdk (gpio_config (request pin mode pull_up pull_down intr open_drain));
  if negb (code r =? ESP_OK) then mret false else
  _ ← sdk (gpio_set_drive_capability pin drive);
  when (negb (bool_decide (intr = NONE)) && bool_decide (is_Some callback))
       ((if in_table pin then modify (set_cb pin callback) else halt Undefined);;
        _ ← sdk (gpio_isr_handler_add pin pin);
        mret tt);;
  mret true.

Definition setLevel (pin : Z) (level : Z) : Method unit :=
  _ ← sdk (gpio_set_level pin level); mret tt.

Definition getLevel (pin : Z) : Method Z :=
  r ← sdk (gpio_get_level pin); mret (code r).

(** [!lvl] passed as [uint32_t]. *)
Definition lnot (lvl : Z) : Z := if lvl =? 0 then 1 else 0.

Definition toggle (pin : Z) : Method unit :=
  lvl ← getLevel pin;
  setLevel pin (lnot lvl).

Definition resetPin (pin : Z) : Method unit :=
  _ ← sdk (gpio_reset_pin pin); mret tt.

Definition setDriveStrength (pin : Z) (strength : DriveStrength) : Method unit :=
  _ ← sdk (gpio_set_drive_capability pin strength); mret tt.

(** The trampoline the SDK runs on an interrupt; [arg] is the pin number
    that [configurePin] registered it with. *)
Definition isrHandler (arg : Z) : Method unit :=
  let pin := arg in
  r ← sdk (gpio_get_level pin);
  let level := code r in
  m ← this;
  if negb (in_table pin) then halt Undefined else
  match _configs m !! Z.to_nat pin with
  | Some cfg =>
      match cb cfg with
      | Some f => _ ← sdk (callback f pin level); mret tt
      | None => mret tt
      end
  | None => halt Undefined
  end.

(** [set_isr_handler(fn, arg, intr_alloc_flags, handle)]: the pin is
    [arg] again; [fn] is the caller's handler. *)
Definition set_isr_handler (arg : Z) : Method esp_err_t :=
  m ← this;
  if negb (_initialized m) then mret ESP_ERR_INVALID_STATE else
  r ← sdk (gpio_isr_handler_add arg arg);
  mret (code r).

(** *** Everything that can happen to the manager *)
Inductive Action :=
| do_init
| do_configurePin (pin : Z) (mode : PinMode) (pull_up pull_down : bool)
                  (intr : InterruptTrigger) (callback : GpioCallback)
                  (open_drain : bool) (drive : DriveStrength)
| do_setLevel (pin level : Z)
| do_getLevel (pin : Z)
| do_toggle (pin : Z)
| do_resetPin (pin : Z)
| do_setDriveStrength (pin : Z) (strength : DriveStrength)
| on_interrupt (pin : Z).

Definition perform (a : Action) : Method unit :=
  match a with
  | do_init => _ ← init; mret tt
  | do_configurePin p m u d i c o s => _ ← configurePin p m u d i c o s; mret tt
  | do_setLevel p l => setLevel p l
  | do_getLevel p => _ ← getLevel p; mret tt
  | do_toggle p => toggle p
  | do_resetPin p => resetPin p
  | do_setDriveStrength p s => setDriveStrength p s
  | on_interrupt p => isrHandler p
  end.

Fixpoint run (env : Env Call) (actions : list Action) (w : World Call GpioManager)
  : option (World Call GpioManager) :=
  match actions with
  | [] => Some w
  | a :: rest =>
      match perform a env w with
      | Done (_, w') => run env rest w'
      | Halted _ => None
      end
  end.

Definition fresh : World Call GpioManager := mkWorld constructed [].

(** *** A model of the pins

    The level a pin shows: what the most recent [gpio_set_level] on it
    drove, low if it was never driven. *)
Fixpoint driven (pin : Z) (tr : list Call) : Z :=
  match tr with
  | [] => 0
  | gpio_set_level p level :: older =>
      if p =? pin then (if level =? 0 then 0 else 1) else driven pin older
  | _ :: older => driven pin older
  end.

(** The pin shows the level just written to it: nothing but the manager
    drives the pin between the write and the read. *)
Definition reads_back (env : Env Call) (tr : list Call) (pin : Z) : Prop :=
  ∀ level,
    code (env (gpio_get_level pin :: gpio_set_level pin level :: tr))
    = if level =? 0 then 0 else 1.

(** The world in which [configurePin] builds its request: the manager
    after the [init] that an uninitialised manager runs first. *)
Definition prepared (env : Env Call) (w : World Call GpioManager)
  : World Call GpioManager :=
  if _initialized (self w) then w
  else match init env w with
       | Done (_, w') => w'
       | Halted _ => w
       end.

(** An ESP32 whose pins answer as the chip does: a read gives the driven
    level; pins 34 to 39 are input-only, so a request to make one of them
    an output is rejected with [ESP_ERR_INVALID_ARG] (258), like a request
    for a pin that does not exist. *)
Definition healthy : Env Call := λ tr,
  match tr with
  | gpio_get_level pin :: older => mkReply (driven pin older) None
  | gpio_config io_conf :: _ =>
      let output := match mode io_conf with
                    | GPIO_MODE_OUTPUT | GPIO_MODE_INPUT_OUTPUT_OD => true
                    | _ => false
                    end in
      let limit := if output then 2 ^ 34 else 2 ^ GPIO_NUM_MAX in
      mkReply (if pin_bit_mask io_conf <? limit then ESP_OK else 258) None
  | _ => mkReply ESP_OK None
  end.

(** The manager after pin 4 was configured as an output with drive
    strength 2 and driven high. *)
Definition pin4_high : World Call GpioManager :=
  mkWorld (set_initialized true constructed)
          [gpio_set_level 4 1;
           gpio_set_drive_capability 4 _2;
           gpio_config (request 4 OUTPUT false false NONE false);
           gpio_install_isr_service 0].

End GPIO.

(** ** ADCManager (adc.hpp, ADCManager.cpp) *)

Module ADC.

(** The SDK's enumerations ([adc_unit_t], [adc_channel_t],
    [adc_bitwidth_t], [adc_atten_t]) are passed through by number. *)
Definition adc_unit_t := Z.
Definition adc_channel_t := Z.
Definition adc_bitwidth_t := Z.
Definition adc_atten_t := Z.

(** [std::function<void(const adc_continuous_evt_data_t&)>]: empty, or
    some callable of the application. *)
Definition Observer := option Z.

Record ADCManager := mkADCManager {
  one_shot_unit_handle : ptr;
  continuous_handle : ptr;
  cali_handle : ptr;
  user_callback : Observer;
  continuous_running : bool;
  channel_atten_map : gmap Z Z
}.

Definition constructed : ADCManager :=
  mkADCManager nullptr nullptr nullptr None false ∅.

Definition set_one_shot_unit_handle (v : ptr) (m : ADCManager) : ADCManager :=
  mkADCManager v (continuous_handle m) (cali_handle m) (user_callback m)
    (continuous_running m) (channel_atten_map m).
Definition set_continuous_handle (v : ptr) (m : ADCManager) : ADCManager :=
  mkADCManager (one_shot_unit_handle m) v (cali_handle m) (user_callback m)
    (continuous_running m) (channel_atten_map m).
Definition set_cali_handle (v : ptr) (m : ADCManager) : ADCManager :=
  mkADCManager (one_shot_unit_handle m) (continuous_handle m) v (user_callback m)
    (continuous_running m) (channel_atten_map m).
Definition set_user_callback (v : Observer) (m : ADCManager) : ADCManager :=
  mkADCManager (one_shot_unit_handle m) (continuous_handle m) (cali_handle m) v
    (continuous_running m) (channel_atten_map m).
Definition set_continuous_running (v : bool) (m : ADCManager) : ADCManager :=
  mkADCManager (one_shot_unit_handle m) (continuous_handle m) (cali_handle m)
    (user_callback m) v (channel_atten_map m).
Definition set_channel_atten (ch : adc_channel_t) (atten : adc_atten_t)
    (m : ADCManager) : ADCManager :=
  mkADCManager (one_shot_unit_handle m) (continuous_handle m) (cali_handle m)
    (user_callback m) (continuous_running m) (<[ch := atten]> (channel_atten_map m)).

(** *** The SDK as the manager sees it

    Calls that create a handle or read a sample store their result
    through a pointer; the reply's [written] is that store. *)
Inductive Call :=
| adc_oneshot_new_unit (unit_id : adc_unit_t)
| adc_oneshot_config_channel (handle : ptr) (channel : adc_channel_t)
                             (atten : adc_atten_t) (bitwidth : adc_bitwidth_t)
| adc_cali_create_scheme_line_fitting (unit_id : adc_unit_t) (atten : adc_atten_t)
                                      (bitwidth : adc_bitwidth_t)
| adc_oneshot_read (handle : ptr) (channel : adc_channel_t)
| adc_cali_raw_to_voltage (handle : ptr) (raw : Z)
| adc_continuous_new_handle (max_store_buf_size conv_frame_size : Z)
| adc_continuous_config (handle : ptr) (sample_freq_hz : Z)
                        (pattern : list adc_channel_t)
| adc_continuous_register_event_callbacks (handle : ptr)
| adc_continuous_start (handle : ptr)
| adc_continuous_stop (handle : ptr)
| observer (f : Z) (event_data : ptr).

Abbreviation Method := (M Call ADCManager).

(** A status code together with what the method stored through its
    [int*] argument, if it stored anything. *)
Definition Stored : Type := esp_err_t * option Z.

(** *** Methods *)

Definition configOneShot (unit : adc_unit_t) (channel : adc_channel_t)
    (bitwidth : adc_bitwidth_t) (atten : adc_atten_t) : Method esp_err_t :=
  m ← this;
  r ← sdk (adc_oneshot_new_unit unit);
  modify (set_one_shot_unit_handle (default (one_shot_unit_handle m) (written r)));;
  if negb (code r =? ESP_OK) then mret (code r) else
  m ← this;
  r ← sdk (adc_oneshot_config_channel (one_shot_unit_handle m) channel atten bitwidth);
  if negb (code r =? ESP_OK) then mret (code r) else
  r ← sdk (adc_cali_create_scheme_line_fitting unit atten bitwidth);
  modify (set_cali_handle (default (cali_handle m) (written r)));;
  when (negb (code r =? ESP_OK)) (modify (set_cali_handle nullptr));;
  mret ESP_OK.

Definition readOneShot (unit : adc_unit_t) (channel : adc_channel_t)
  : Method Stored :=
  m ← this;
  if is_null (one_shot_unit_handle m) then mret (ESP_ERR_INVALID_STATE, None) else
  r ← sdk (adc_oneshot_read (one_shot_unit_handle m) channel);
  mret (code r, written r).

Definition readOneShotVoltage (unit : adc_unit_t) (channel : adc_channel_t)
  : Method Stored :=
  got ← readOneShot unit channel;
  let raw := default 0 (snd got) in
  let ret := fst got in
  if negb (ret =? ESP_OK) then mret (ret, None) else
  m ← this;
  if negb (is_null (cali_handle m)) then
    r ← sdk (adc_cali_raw_to_voltage (cali_handle m) raw);
    mret (code r, written r)
  else mret (ESP_OK, Some raw).

Definition configContinuous (unit : adc_unit_t) (channels : list adc_channel_t)
    (bitwidth : adc_bitwidth_t) (atten : adc_atten_t)
    (sample_freq_hz sample_buffer_size : Z) : Method esp_err_t :=
  m ← this;
  r ← sdk (adc_continuous_new_handle sample_buffer_size (sample_buffer_size / 2));
  modify (set_continuous_handle (default (continuous_handle m) (written r)));;
  if negb (code r =? ESP_OK) then mret (code r) else
  modify (λ m, foldl (λ acc ch, set_channel_atten ch atten acc) m channels);;
  m ← this;
  r ← sdk (adc_continuous_config (continuous_handle m) sample_freq_hz channels);
  if negb (code r =? ESP_OK) then mret (code r) else
  _ ← sdk (adc_continuous_register_event_callbacks (continuous_handle m));
  mret ESP_OK.

Definition startContinuous : Method esp_err_t :=
  m ← this;
  if is_null (continuous_handle m) then mret ESP_ERR_INVALID_STATE else
  r ← sdk (adc_continuous_start (continuous_handle m));
  when (code r =? ESP_OK) (modify (set_continuous_running true));;
  mret (code r).

Definition stopContinuous : Method esp_err_t :=
  m ← this;
  if is_null (continuous_handle m) then mret ESP_ERR_INVALID_STATE else
  r ← sdk (adc_continuous_stop (continuous_handle m));
  when (code r =? ESP_OK) (modify (set_continuous_running false));;
  mret (code r).

Definition registerCallback (cb : Observer) : Method unit :=
  modify (set_user_callback cb).

(** The conversion-done trampoline, with [user_data] the manager. *)
Definition continuousCallback (event_data : ptr) : Method bool :=
  m ← this;
  match user_callback m with
  | Some f => _ ← sdk (observer f event_data); mret true
  | None => mret false
  end.

Definition fresh : World Call ADCManager := mkWorld constructed [].

(** A chip without calibration data: the unit is created and samples are
    read (here always 2048), but no calibration scheme can be made
    ([ESP_ERR_NOT_SUPPORTED], 262). *)
Definition uncalibrated : Env Call := λ tr,
  match tr with
  | adc_oneshot_new_unit _ :: _ => mkReply ESP_OK (Some 1073700000)
  | adc_cali_create_scheme_line_fitting _ _ _ :: _ => mkReply 262 None
  | adc_oneshot_read _ _ :: _ => mkReply ESP_OK (Some 2048)
  | _ => mkReply ESP_OK None
  end.

(** The manager after [configOneShot(1, 6, 12, 3)] on such a chip. *)
Definition one_shot_uncalibrated : World Call ADCManager :=
  mkWorld (set_one_shot_unit_handle 1073700000 constructed)
          [adc_cali_create_scheme_line_fitting 1 3 12;
           adc_oneshot_config_channel 1073700000 6 3 12;
           adc_oneshot_new_unit 1].

End ADC.

(** ** Invariants of whole worlds *)

Module Worlds.

(** [stays I c]: whenever [c] returns, a property of the world (manager
    and trace together) that held before still holds. *)
Definition stays {Call St A} (I : World Call St → Prop) (c : M Call St A) : Prop :=
  ∀ env w a w', I w → c env w = Done (a, w') → I w'.

End Worlds.

Import Worlds.

(** ** WiFiManager: the exported C functions and the event group *)

Module WiFiC.
Import WiFi.

Definition status_code (s : WiFiStatus) : Z :=
  match s with DISCONNECTED => 0 | CONNECTING => 1 | CONNECTED => 2 | FAILED => 3 end.

(** The [extern "C"] wrappers.  A [const char*] that may be null is an
    [option]; [ssid] and [password] of the station are used unchecked. *)
Definition wifi_init : Method Z := b ← init; mret (Z.b2z b).

Definition wifi_configure_station (ssid password : string) (hostname : option string)
  : Method Z :=
  b ← configureStation ssid password (default EmptyString hostname); mret (Z.b2z b).

Definition wifi_configure_ap (ssid : string) (password : option string)
    (channel max_connections : Z) : Method Z :=
  b ← configureAP ssid (default EmptyString password) channel max_connections;
  mret (Z.b2z b).

Definition wifi_start : Method Z := b ← start; mret (Z.b2z b).
Definition wifi_stop : Method Z := b ← stop; mret (Z.b2z b).
Definition wifi_get_status : Method Z := s ← getStatus; mret (status_code s).

(** [wifi_get_ip_address(ip_buffer, buffer_size)]: the result and, when
    something was copied, the text left in the buffer.  [buffer_size] is a
    [size_t]; with 0 the length [buffer_size - 1] wraps around and the
    copy runs past any buffer. *)
Definition wifi_get_ip_address (buffer_size : Z) : Method (Z * option string) :=
  ip ← getIPAddress;
  if empty ip then mret (0, None) else
  if buffer_size <? 1 then halt Undefined else
  mret (1, Some (strncpy (Z.to_nat (buffer_size - 1)) ip)).

Definition wifi_wait_for_connection (portTICK_PERIOD_MS timeout_ms : Z) : Method Z :=
  b ← waitForConnection portTICK_PERIOD_MS timeout_ms; mret (Z.b2z b).

(** *** A model of the event group

    The bits of the group the manager created last, as its own
    set and clear calls leave them. *)
Fixpoint event_bits (tr : list Call) : Z :=
  match tr with
  | [] => 0
  | xEventGroupCreate :: _ => 0
  | xEventGroupSetBits _ bits :: older => Z.lor (event_bits older) bits
  | xEventGroupClearBits _ bits :: older => Z.ldiff (event_bits older) bits
  | _ :: older => event_bits older
  end.

(** [xEventGroupWaitBits] does not block when one of the bits waited for
    is already set: it returns the bits as they are. *)
Definition reports_bits (env : Env Call) : Prop :=
  ∀ tr group waited ticks,
    Z.land (event_bits tr) waited ≠ 0 →
    code (env (xEventGroupWaitBits group waited ticks :: tr)) = event_bits tr.

(** An SDK that is [healthy] and whose event group behaves like the model;
    a wait on bits that are all clear times out with 0. *)
Definition with_event_group : Env Call := λ tr,
  match tr with
  | xEventGroupWaitBits _ waited _ :: older =>
      mkReply (if Z.land (event_bits older) waited =? 0 then 0 else event_bits older)
              None
  | _ => healthy tr
  end.

(** An SDK that has no memory left for the event group. *)
Definition no_event_group : Env Call := λ tr,
  match tr with
  | xEventGroupCreate :: _ => mkReply nullptr None
  | _ => healthy tr
  end.

(** The calls [start] makes once the manager is initialised, newest
    first, for a given mode and station credentials. *)
Definition start_calls (mode : WiFiMode) (ssid password : string) : list Call :=
  match mode with
  | STATION =>
      [esp_wifi_connect; esp_wifi_start;
       esp_wifi_set_config WIFI_IF_STA
         (sta (mkStaConfig (strncpy 31 ssid) (strncpy 63 password)));
       esp_wifi_set_mode WIFI_MODE_STA]
  | BOTH =>
      [esp_wifi_connect; esp_wifi_start;
       esp_wifi_set_config WIFI_IF_STA
         (sta (mkStaConfig (strncpy 31 ssid) (strncpy 63 password)));
       esp_wifi_set_mode WIFI_MODE_APSTA]
  | ACCESS_POINT => [esp_wifi_start; esp_wifi_set_mode WIFI_MODE_AP]
  end.

(** The manager after both roles were configured on a working SDK, and
    after it was then started. *)
Definition both_roles : World Call WiFiManager :=
  Eval vm_compute in
    match run healthy [do_configureStation "net" "pw" EmptyString;
                       do_configureAP "ap" "secret" 1 4] fresh with
    | Some w => w
    | None => fresh
    end.

Definition both_roles_started : World Call WiFiManager :=
  Eval vm_compute in
    match start healthy both_roles with
    | Done (_, w) => w
    | Halted _ => both_roles
    end.

(** The manager is initialised and the fail bit of its event group is set. *)
Definition fail_latched (w : World Call WiFiManager) : Prop :=
  _initialized (self w) = true ∧ Z.testbit (event_bits (trace w)) 1 = true.



(** The started manager after a disconnect, and after the got-IP event
    that follows a successful reconnection. *)
Definition disconnected_once : World Call WiFiManager :=
  Eval vm_compute in
    match wifiEventHandler WIFI_EVENT_STA_DISCONNECTED with_event_group
            both_roles_started with
    | Done (_, w) => w
    | Halted _ => both_roles_started
    end.

Definition reconnected : World Call WiFiManager :=
  Eval vm_compute in
    match run with_event_group [on_event IP_EVENT_STA_GOT_IP] disconnected_once with
    | Some w => w
    | None => disconnected_once
    end.


(** A working SDK after the got-IP event, with address 192.168.4.1: the
    address is stored in memory order, first octet lowest. *)
Definition with_address : Env Call := λ tr,
  match tr with
  | esp_netif_get_ip_info _ :: _ => mkReply ESP_OK (Some 17082560)
  | _ => healthy tr
  end.

Definition connected : World Call WiFiManager :=
  Eval vm_compute in
    match run healthy [do_configureStation "net" "pw" EmptyString; do_start;
                       on_event IP_EVENT_STA_GOT_IP] fresh with
    | Some w => w
    | None => fresh
    end.

(** No NUL character in a text. *)
Fixpoint nul_free (s : string) : bool :=
  match s with
  | EmptyString => true
  | String c rest => negb (Ascii.eqb c Ascii.zero) && nul_free rest
  end.

(** The decimal text of a byte. *)
Definition byte_text (n : nat) : string :=
  NilZero.string_of_uint (N.to_uint (N.of_nat n)).

(** The manager is initialised and its handles are in place. *)
Definition handles_ok (m : WiFiManager) : Prop :=
  _initialized m = true →
  s_wifi_event_group m ≠ nullptr ∧ _staNetif m ≠ nullptr ∧ _apNetif m ≠ nullptr.

(** The status values that the public methods alone can produce. *)
Definition not_connected (m : WiFiManager) : Prop :=
  _status m = DISCONNECTED ∨ _status m = CONNECTING.

Definition is_event (a : Action) : bool :=
  match a with on_event _ => true | _ => false end.

(** Which actions may assign which private field. *)
Definition writes_station (a : Action) : bool :=
  match a with do_configureStation _ _ _ => true | _ => false end.
Definition writes_ap (a : Action) : bool :=
  match a with do_configureAP _ _ _ _ => true | _ => false end.
Definition writes_status (a : Action) : bool :=
  match a with do_start | do_stop | on_event _ => true | _ => false end.
Definition writes_callback (a : Action) : bool :=
  match a with do_setEventCallback _ _ => true | _ => false end.

(** The only call that clears event bits clears the connected bit. *)
Definition clears_connected_only (c : Call) : Prop :=
  match c with
  | xEventGroupClearBits _ bits => bits = WIFI_CONNECTED_BIT
  | _ => True
  end.

End WiFiC.

(** ** MqttClient: writers of the fields *)

Module MqttMore.
Import MQTT.

Definition is_event (a : Action) : bool :=
  match a with on_event _ _ => true | _ => false end.

Definition writes_status (a : Action) : bool :=
  match a with
  | do_configure _ _ _ _ _ _ | do_connect | do_disconnect | on_event _ _ => true
  | _ => false
  end.
Definition writes_callback (a : Action) : bool :=
  match a with do_setEventCallback _ _ => true | _ => false end.

(** The status values that the public methods alone can produce. *)
Definition not_connected (m : MqttClient) : Prop := _status m ≠ CONNECTED.


(** Two texts with a NUL inside: [ESP32], NUL, [Client] and
    [offline], NUL, [padding]. *)
Definition client_id_with_nul : string :=
  ("ESP32" ++ String Ascii.zero "Client")%string.
Definition payload_with_nul : string :=
  ("offline" ++ String Ascii.zero "padding")%string.

(** A broker layer that creates the first client and has no memory for
    a second one. *)
Definition one_client_only : Env Call := λ tr,
  match tr with
  | esp_mqtt_client_init _ :: older =>
      match established older with
      | None => mkReply 1073500000 None
      | Some _ => mkReply nullptr None
      end
  | _ => healthy tr
  end.

(** The manager after a first [configure] on such a broker layer. *)
Definition configured_once : World Call MqttClient :=
  Eval vm_compute in
    match configure "ws://broker/mqtt" "ESP32_Client" "user" "pass" 60 true
            one_client_only fresh with
    | Done (_, w) => w
    | Halted _ => fresh
    end.

End MqttMore.

(** ** The application's use of the broker client (app.cpp) *)

Module App.
Import MQTT.

(** The exported C functions are [MQTT.perform] on the singleton. *)
Section Credentials.
(** The broker URI and the credentials that app.cpp hard-codes. *)
Variables BROKER_URI username password : string.



(** One round of the publishing loop of [esp_app_main], with the counter
    already printed into [payload]. *)
Definition publish_counter (payload : string) : Method Z :=
  perform (do_publish "test/topic" payload 1 true).
End Credentials.


End App.

(** ** GpioManager: registrations *)

Module GpioMore.
Import GPIO.

(** [configurePin] registers a callback only for a real trigger and a
    non-empty function. *)
Definition registers (intr : InterruptTrigger) (callback : GpioCallback) : bool :=
  negb (bool_decide (intr = NONE)) && bool_decide (is_Some callback).

(** The pins for which the trampoline was handed to the SDK, newest first. *)
Fixpoint armed (tr : list Call) : list Z :=
  match tr with
  | [] => []
  | gpio_isr_handler_add pin _ :: older => pin :: armed older
  | _ :: older => armed older
  end.

(** The callback stored for a pin, if the pin has an entry. *)
Definition registered (m : GpioManager) (pin : Z) : option GpioCallback :=
  cb <$> _configs m !! Z.to_nat pin.

Definition table_ok (m : GpioManager) : Prop :=
  List.length (_configs m) = Z.to_nat GPIO_NUM_MAX.

Definition is_configurePin (a : Action) : bool :=
  match a with do_configurePin _ _ _ _ _ _ _ _ => true | _ => false end.

(** The pin always shows what was last written to it. *)
Definition always_reads_back (env : Env Call) (pin : Z) : Prop :=
  ∀ tr, reads_back env tr pin.

(** A chip on which the interrupt service cannot be installed
    ([ESP_ERR_NO_MEM], 257). *)
Definition no_isr_service : Env Call := λ tr,
  match tr with
  | gpio_install_isr_service _ :: _ => mkReply 257 None
  | _ => healthy tr
  end.

(** The manager after a rising-edge callback was registered for pin 4. *)
Definition pin4_watched : World Call GpioManager :=
  Eval vm_compute in
    match run healthy [do_configurePin 4 INPUT true false RISING (Some 7) false DEFAULT]
            fresh with
    | Some w => w
    | None => fresh
    end.

End GpioMore.

(** ** ADCManager: configuration outcomes *)

Module AdcMore.
Import ADC.

(** The SDK's answers to the three calls of [configOneShot], in the
    order of the calls. *)
Definition unit_reply (env : Env Call) (w : World Call ADCManager)
    (unit : adc_unit_t) : Reply :=
  env (adc_oneshot_new_unit unit :: trace w).

Definition unit_handle (env : Env Call) (w : World Call ADCManager)
    (unit : adc_unit_t) : ptr :=
  default (one_shot_unit_handle (self w)) (written (unit_reply env w unit)).

Definition channel_reply (env : Env Call) (w : World Call ADCManager)
    (unit : adc_unit_t) (channel : adc_channel_t) (bitwidth : adc_bitwidth_t)
    (atten : adc_atten_t) : Reply :=
  env (adc_oneshot_config_channel (unit_handle env w unit) channel atten bitwidth
       :: adc_oneshot_new_unit unit :: trace w).

Definition calibration_reply (env : Env Call) (w : World Call ADCManager)
    (unit : adc_unit_t) (channel : adc_channel_t) (bitwidth : adc_bitwidth_t)
    (atten : adc_atten_t) : Reply :=
  env (adc_cali_create_scheme_line_fitting unit atten bitwidth
       :: adc_oneshot_config_channel (unit_handle env w unit) channel atten bitwidth
       :: adc_oneshot_new_unit unit :: trace w).

(** A chip that rejects the channel ([ESP_ERR_INVALID_ARG], 258) after
    the unit was created. *)
Definition bad_channel : Env Call := λ tr,
  match tr with
  | adc_oneshot_new_unit _ :: _ => mkReply ESP_OK (Some 1073700000)
  | adc_oneshot_config_channel _ _ _ _ :: _ => mkReply 258 None
  | adc_oneshot_read _ _ :: _ => mkReply ESP_OK (Some 2048)
  | _ => mkReply ESP_OK None
  end.

(** A chip on which everything works; the continuous handle is created,
    the configuration of the continuous mode is rejected. *)
Definition bad_pattern : Env Call := λ tr,
  match tr with
  | adc_continuous_new_handle _ _ :: _ => mkReply ESP_OK (Some 1073800000)
  | adc_continuous_config _ _ _ :: _ => mkReply 258 None
  | _ => mkReply ESP_OK None
  end.

End AdcMore.
(** * Part II: properties *)

(** ** Rules for runs that return *)

Section Rules.
Context {Call St : Type}.
Implicit Types P : St → Prop.

Lemma keeps_pure {A} P (a : A) : keeps P (mret a : M Call St A).
Proof. intros env w a' w' HP [= _ <-]. exact HP. Qed.

Lemma keeps_bind {A B} P (c : M Call St A) (k : A → M Call St B) :
  keeps P c → (∀ a, keeps P (k a)) → keeps P (c ≫= k).
Proof.
  intros Hc Hk env w b w' HP. unfold mbind, M_bind, bind.
  destruct (c env w) as [[a w1]|h] eqn:E; [|discriminate].
  intros Hrun. eapply Hk; [|exact Hrun]. eapply Hc; eauto.
Qed.

Lemma keeps_this P : keeps P (this : M Call St St).
Proof. intros env w a w' HP [= _ <-]. exact HP. Qed.

Lemma keeps_sdk P (c : Call) : keeps P (sdk c).
Proof. intros env w a w' HP [= _ <-]. exact HP. Qed.

Lemma keeps_halt {A} P h : keeps P (halt h : M Call St A).
Proof. intros env w a w' _ [=]. Qed.

Lemma keeps_modify P (f : St → St) :
  (∀ s, P s → P (f s)) → keeps P (modify f : M Call St unit).
Proof. intros Hf env w a w' HP [= _ <-]. apply Hf, HP. Qed.

Lemma keeps_check P r : keeps P (ESP_ERROR_CHECK r : M Call St unit).
Proof.
  unfold ESP_ERROR_CHECK. destruct (code r =? ESP_OK);
    [apply (keeps_pure P tt) | apply keeps_halt].
Qed.

Lemma keeps_filled P r : keeps P (filled r : M Call St Z).
Proof.
  unfold filled. destruct (written r);
    [apply (keeps_pure P) | apply keeps_halt].
Qed.

Lemma keeps_when P b (c : M Call St unit) : keeps P c → keeps P (when b c).
Proof. intros Hc. destruct b; [exact Hc | apply (keeps_pure P tt)]. Qed.

Lemma keeps_if {A} P (b : bool) (c1 c2 : M Call St A) :
  keeps P c1 → keeps P c2 → keeps P (if b then c1 else c2).
Proof. destruct b; auto. Qed.

(** A sequence returns when both halves do. *)
Lemma bind_Done {A B} (c : M Call St A) (k : A → M Call St B) env w b w' :
  (c ≫= k) env w = Done (b, w') →
  ∃ a w1, c env w = Done (a, w1) ∧ k a env w1 = Done (b, w').
Proof.
  unfold mbind, M_bind, bind.
  destruct (c env w) as [[a w1]|h]; [eauto | discriminate].
Qed.

End Rules.

Create HintDb keeps discriminated.

(** Breaks a method body down to its field assignments, which are left as
    goals [∀ s, P s → P (f s)]. *)
Ltac keeps_step :=
  first
    [ progress cbv zeta
    | apply keeps_bind; [|intros ?]
    | apply keeps_if
    | apply keeps_when
    | apply keeps_check
    | apply keeps_filled
    | apply keeps_sdk
    | apply keeps_halt
    | apply keeps_this
    | apply keeps_modify
    | refine (keeps_pure _ _)
    | solve [auto with keeps] ].
Ltac keeps_auto := repeat keeps_step.

(** Runs a method body symbolically, as far as the tests on the
    environment's answers allow. *)
Ltac run_method :=
  cbv beta iota zeta delta
    [mbind M_bind bind mret M_ret pure modify sdk this when halt
     ESP_ERROR_CHECK filled];
  cbn [self trace].

(** ** WiFiManager *)

Section WiFiFacts.
Import WiFi.

(** *** Status *)

Lemma init_keeps_status : keeps status_ok init.
Proof. unfold init. keeps_auto; intros [] H; exact H. Qed.
#[local] Hint Resolve init_keeps_status : keeps.

Lemma initialized_or_init_keeps_status : keeps status_ok initialized_or_init.
Proof. unfold initialized_or_init. keeps_auto. Qed.
#[local] Hint Resolve initialized_or_init_keeps_status : keeps.

Lemma notify_keeps_status s : keeps status_ok (notify s).
Proof. unfold notify. keeps_auto. Qed.
#[local] Hint Resolve notify_keeps_status : keeps.

Lemma perform_keeps_status a : keeps status_ok (perform a).
Proof.
  destruct a; simpl;
    try match goal with |- context [wifiEventHandler ?e] => destruct e end;
    unfold configureStation, configureAP, start, stop, getStatus,
      getIPAddress, getAPIPAddress, setEventCallback, waitForConnection,
      scanNetworks, wifiEventHandler;
    keeps_auto;
    try (intros [] H; first [exact H | unfold status_ok; simpl; discriminate]).
Qed.

Lemma run_keeps_status env actions :
  ∀ w w', status_ok (self w) → run env actions w = Some w' → status_ok (self w').
Proof.
  induction actions as [|a rest IH]; intros w w' Hok; simpl.
  - intros [= <-]. exact Hok.
  - destruct (perform a env w) as [[[] w1]|h] eqn:Hstep; [|discriminate].
    apply IH. exact (perform_keeps_status a env w tt w1 Hok Hstep).
Qed.

(** C10: whatever sequence of public calls and SDK events is run on the
    constructed singleton, under any behaviour of the SDK, the status is
    never [FAILED]: it is [DISCONNECTED], [CONNECTING] or [CONNECTED]; and
    a station-disconnect event, which always returns, leaves it
    [DISCONNECTED]. *)
Theorem status_never_failed (env : Env Call) (actions : list Action)
    (w : World Call WiFiManager) :
  run env actions fresh = Some w →
  (_status (self w) = DISCONNECTED ∨ _status (self w) = CONNECTING
   ∨ _status (self w) = CONNECTED)
  ∧ ∃ w', wifiEventHandler WIFI_EVENT_STA_DISCONNECTED env w = Done (tt, w')
          ∧ _status (self w') = DISCONNECTED.
Proof.
  intros Hrun. split.
  - assert (status_ok (self w)) as Hok.
    { apply (run_keeps_status env actions fresh w); [discriminate | exact Hrun]. }
    unfold status_ok in Hok. destruct (_status (self w)); tauto.
  - unfold wifiEventHandler, notify. run_method. cbn.
    destruct (is_null (_eventCallback (self w))); cbn; eexists; split; reflexivity.
Qed.

(** After a start, a got-IP event and a disconnect, with an observer
    registered, the status is still one of the three. *)
Lemma status_never_failed_witness :
  ∃ w, run healthy [do_setEventCallback 4096 0; do_start; on_event IP_EVENT_STA_GOT_IP;
                    on_event WIFI_EVENT_STA_DISCONNECTED] fresh = Some w
       ∧ (_status (self w) = DISCONNECTED ∨ _status (self w) = CONNECTING
          ∨ _status (self w) = CONNECTED)
       ∧ ∃ w', wifiEventHandler WIFI_EVENT_STA_DISCONNECTED healthy w = Done (tt, w')
               ∧ _status (self w') = DISCONNECTED.
Proof.
  eexists. split; [vm_compute; reflexivity|].
  apply (status_never_failed healthy
           [do_setEventCallback 4096 0; do_start; on_event IP_EVENT_STA_GOT_IP;
            on_event WIFI_EVENT_STA_DISCONNECTED]).
  vm_compute. reflexivity.
Defined.

(** *** Waiting for a connection *)

(** C6: in access-point-only mode [waitForConnection] returns [false] at
    once, for every timeout and tick period: the manager is unchanged and
    no SDK call is made, in particular no wait on the event bits. *)
Theorem waitForConnection_access_point_only
    (env : Env Call) (portTICK_PERIOD_MS timeoutMs : Z) (w : World Call WiFiManager) :
  _mode (self w) = ACCESS_POINT →
  waitForConnection portTICK_PERIOD_MS timeoutMs env w = Done (false, w).
Proof.
  intros Hmode. unfold waitForConnection. run_method. rewrite Hmode. reflexivity.
Qed.

(** Configuring the access point twice on a new manager leaves it in
    access-point-only mode; waiting for a connection then fails at once. *)
Lemma waitForConnection_access_point_only_witness :
  ∃ w, run healthy [do_configureAP "ESP32_AP" "password123" 1 4;
                    do_configureAP "ESP32_AP" "password123" 1 4] fresh = Some w
       ∧ waitForConnection 10 30000 healthy w = Done (false, w).
Proof.
  eexists. split; [vm_compute; reflexivity|].
  apply waitForConnection_access_point_only. reflexivity.
Defined.

(** With the station role active the method does wait on the event bits. *)
Lemma waitForConnection_station_waits env tick timeoutMs w :
  _mode (self w) ≠ ACCESS_POINT →
  ∃ r w', waitForConnection tick timeoutMs env w = Done (r, w')
          ∧ trace w' = xEventGroupWaitBits (s_wifi_event_group (self w)) 3
                         (timeoutMs / tick) :: trace w.
Proof.
  intros Hmode. unfold waitForConnection. run_method.
  destruct (_mode (self w)) eqn:E; [|congruence|]; simpl;
    repeat match goal with |- context [if negb (?b =? 0) then _ else _] =>
             destruct (negb (b =? 0)) end;
    do 2 eexists; split; reflexivity.
Qed.

(** *** Roles and credentials *)

Lemma init_keeps_settings v : keeps (λ m, settings m = v) init.
Proof. unfold init. keeps_auto. Qed.

Lemma initialized_or_init_keeps_settings v :
  keeps (λ m, settings m = v) initialized_or_init.
Proof. unfold initialized_or_init. keeps_auto. Qed.

(** A successful [configureStation] stores the station credentials and
    leaves the access point's alone; the mode becomes [BOTH] only when it
    was [ACCESS_POINT], and [STATION] otherwise. *)
Lemma configureStation_spec env w ssid password hostname w' :
  configureStation ssid password hostname env w = Done (true, w') →
  _stationSSID (self w') = ssid ∧ _stationPassword (self w') = password
  ∧ _apSSID (self w') = _apSSID (self w) ∧ _apPassword (self w') = _apPassword (self w)
  ∧ _status (self w') = _status (self w)
  ∧ _mode (self w') = if decide (_mode (self w) = ACCESS_POINT) then BOTH else STATION.
Proof.
  unfold configureStation. intros Hrun.
  apply bind_Done in Hrun as (ok & w1 & Hinit & Hrest).
  pose proof (initialized_or_init_keeps_settings _ env w ok w1 eq_refl Hinit) as Hset.
  injection Hset as Hm Hs _ _ Has Hap.
  destruct ok; [|discriminate]. revert Hrest. run_method.
  destruct (negb (empty hostname)); cbn; intros [= <-]; cbn;
    rewrite ?Hm, ?Hs, ?Has, ?Hap; repeat split; reflexivity.
Qed.

(** The same for [configureAP], with the roles exchanged. *)
Lemma configureAP_spec env w ssid password channel maxConnections w' :
  configureAP ssid password channel maxConnections env w = Done (true, w') →
  _apSSID (self w') = ssid ∧ _apPassword (self w') = password
  ∧ _stationSSID (self w') = _stationSSID (self w)
  ∧ _stationPassword (self w') = _stationPassword (self w)
  ∧ _status (self w') = _status (self w)
  ∧ _mode (self w') = if decide (_mode (self w) = STATION) then BOTH else ACCESS_POINT.
Proof.
  unfold configureAP. intros Hrun.
  apply bind_Done in Hrun as (ok & w1 & Hinit & Hrest).
  pose proof (initialized_or_init_keeps_settings _ env w ok w1 eq_refl Hinit) as Hset.
  injection Hset as Hm Hs Hss Hsp _ _.
  destruct ok; [|discriminate]. revert Hrest. run_method. cbn.
  match goal with |- context [code ?r =? ESP_OK] => destruct (code r =? ESP_OK) end;
    [|discriminate].
  intros [= <-]; cbn. rewrite ?Hm, ?Hs, ?Hss, ?Hsp; repeat split; reflexivity.
Qed.

(** Station first, access point second gives [BOTH] whenever the manager
    was not already configured for an access point. *)
Lemma configureStation_then_configureAP env w w1 w2 s1 p1 h s2 p2 c n :
  _mode (self w) = STATION →
  configureStation s1 p1 h env w = Done (true, w1) →
  configureAP s2 p2 c n env w1 = Done (true, w2) →
  _mode (self w2) = BOTH.
Proof.
  intros Hm H1 H2.
  apply configureStation_spec in H1 as (_ & _ & _ & _ & _ & Hm1).
  apply configureAP_spec in H2 as (_ & _ & _ & _ & _ & Hm2).
  rewrite Hm in Hm1. simpl in Hm1. rewrite Hm1 in Hm2. exact Hm2.
Qed.

(** C1, at the inputs where the code departs from it.  On a new manager
    and a working SDK: (1) [configureAP] then [configureStation] ends in
    mode [STATION], not [BOTH]; (2) with both roles configured (mode
    [BOTH]), configuring the station again with other credentials ends in
    mode [STATION]: the access point's mode bit is lost although its
    credentials are still stored; (3) likewise a second [configureAP] in
    mode [BOTH] ends in [ACCESS_POINT]. *)
Theorem configure_again_drops_other_role :
  (∃ w, run healthy [do_configureAP "ap" "secret" 1 4;
                     do_configureStation "net" "pw" EmptyString] fresh = Some w
        ∧ _mode (self w) = STATION)
  ∧ (∃ w1 w2,
        run healthy [do_configureStation "net" "pw" EmptyString;
                     do_configureAP "ap" "secret" 1 4] fresh = Some w1
        ∧ _mode (self w1) = BOTH
        ∧ configureStation "net2" "pw2" EmptyString healthy w1 = Done (true, w2)
        ∧ _mode (self w2) = STATION
        ∧ _apSSID (self w2) = "ap"%string)
  ∧ (∃ w1 w2,
        run healthy [do_configureStation "net" "pw" EmptyString;
                     do_configureAP "ap" "secret" 1 4] fresh = Some w1
        ∧ configureAP "ap2" "secret2" 6 2 healthy w1 = Done (true, w2)
        ∧ _mode (self w2) = ACCESS_POINT
        ∧ _stationSSID (self w2) = "net"%string).
Proof.
  split; [|split].
  - eexists. split; vm_compute; reflexivity.
  - do 2 eexists. split; [vm_compute; reflexivity|].
    split; [reflexivity|]. split; [vm_compute; reflexivity|]. split; reflexivity.
  - do 2 eexists. split; [vm_compute; reflexivity|].
    split; [vm_compute; reflexivity|]. split; reflexivity.
Qed.

End WiFiFacts.

(** ** MqttClient *)

Section MqttFacts.
Import MQTT.

(** *** What [configure] sends *)

(** [configure] always returns.  It hands the SDK a request made of its
    arguments and of the last-will fields stored in the manager at that
    moment, which it includes only when the stored topic is not empty;
    it succeeds exactly when the SDK gives back a client. *)
Lemma configure_runs env w u c n p k s :
  let m := set_broker u c (self w) in
  let will := if negb (empty (_willTopic m)) then stored_will m else no_will in
  ∃ req w',
    configure u c n p k s env w
      = Done (negb (is_null (code (env (esp_mqtt_client_init req :: trace w)))), w')
    ∧ established (trace w') = Some req
    ∧ last_will req = will
    ∧ disable_clean_session req = s
    ∧ session_disable_clean_session (_config (self w')) = s
    ∧ _client (self w') = code (env (esp_mqtt_client_init req :: trace w))
    ∧ stored_will (self w') = stored_will (self w).
Proof.
  intros m will. subst m will. unfold configure. run_method. cbn.
  destruct (empty (_willTopic (self w))) eqn:Hempty; cbn;
    match goal with |- context [is_null ?h] => destruct (is_null h) eqn:Hnull end;
    cbn; do 2 eexists; (split; [rewrite Hnull; reflexivity|]);
    cbn; repeat split; reflexivity.
Qed.

(** C9: [configure] stores its [cleanSession] argument, not negated, in
    the request's [disable_clean_session]; whatever the SDK answers, the
    clean-session behaviour asked of the broker layer is therefore the
    negation of the argument. *)
Theorem configure_inverts_clean_session (env : Env Call) (w : World Call MqttClient)
    (uri clientId username password : string) (keepalive : Z) (cleanSession : bool) :
  ∃ result w' req,
    configure uri clientId username password keepalive cleanSession env w
      = Done (result, w')
    ∧ session_disable_clean_session (_config (self w')) = cleanSession
    ∧ established (trace w') = Some req
    ∧ disable_clean_session req = cleanSession
    ∧ clean_session_requested req = negb cleanSession.
Proof.
  destruct (configure_runs env w uri clientId username password keepalive cleanSession)
    as (req & w' & Hrun & Hest & _ & Hreq & Hcfg & _).
  exists (negb (is_null (code (env (esp_mqtt_client_init req :: trace w))))), w', req.
  unfold clean_session_requested. rewrite Hreq. auto.
Qed.

(** *** The last will *)

(** [setWill] touches nothing but the four stored fields and calls nothing. *)
Lemma setWill_runs env w topic payload qos retain :
  ∃ w', setWill topic payload qos retain env w = Done (tt, w')
        ∧ trace w' = trace w
        ∧ _client (self w') = _client (self w)
        ∧ _status (self w') = _status (self w)
        ∧ stored_will (self w')
          = (Some (c_string topic), Some (c_string payload), qos, Z.b2z retain)
        ∧ _willTopic (self w') = topic.
Proof. eexists. repeat split; reflexivity. Qed.

(** C2, as the code has it: after a [configure] that succeeded, [setWill]
    leaves the session the SDK holds as it is (same client, no call to
    the SDK, the request of that session carrying the last will present
    when [configure] ran); the next [configure] sends the fields that
    [setWill] stored when the stored topic is not empty, and a request
    without last will when it is empty.  Topic and payload reach the SDK
    as C strings: what it reads of each ends at the first NUL. *)
Theorem setWill_takes_effect_at_next_configure
    (env : Env Call) (w w1 : World Call MqttClient)
    (uri clientId username password : string) (keepalive : Z) (cleanSession : bool)
    (topic payload : string) (qos : Z) (retain : bool)
    (uri' clientId' username' password' : string) (keepalive' : Z)
    (cleanSession' : bool) :
  configure uri clientId username password keepalive cleanSession env w
    = Done (true, w1) →
  ∃ session w2 result w3 session',
    established (trace w1) = Some session
    ∧ last_will session
        = (if negb (empty (_willTopic (self w))) then stored_will (self w) else no_will)
    ∧ setWill topic payload qos retain env w1 = Done (tt, w2)
    ∧ trace w2 = trace w1
    ∧ established (trace w2) = Some session
    ∧ _client (self w2) = _client (self w1)
    ∧ configure uri' clientId' username' password' keepalive' cleanSession' env w2
        = Done (result, w3)
    ∧ established (trace w3) = Some session'
    ∧ last_will session'
        = (if negb (empty topic)
           then (Some (c_string topic), Some (c_string payload), qos, Z.b2z retain)
           else no_will).
Proof.
  intros Hconf.
  destruct (configure_runs env w uri clientId username password keepalive cleanSession)
    as (session & w1' & Hrun & Hest & Hwill & _).
  rewrite Hconf in Hrun. injection Hrun as _ <-.
  destruct (setWill_runs env w1 topic payload qos retain)
    as (w2 & Hset & Htr & Hcl & _ & Hstored & Htopic).
  destruct (configure_runs env w2 uri' clientId' username' password' keepalive'
              cleanSession') as (session' & w3 & Hrun' & Hest' & Hwill' & _).
  cbn in Hwill, Hwill'. rewrite Htopic in Hwill'.
  change (stored_will (set_broker uri' clientId' (self w2)))
    with (stored_will (self w2)) in Hwill'.
  rewrite Hstored in Hwill'.
  exists session, w2. do 2 eexists. exists session'.
  rewrite Htr. repeat split; eauto.
Qed.

(** An application that sets its last will after [configure], as the one
    of the repository does: the session then has none, and gets this one
    at the next [configure].  The payload holds a NUL: what the session
    gets of it ends there. *)
Lemma setWill_takes_effect_at_next_configure_witness :
  ∃ w1 session w2 result w3 session',
    configure "ws://broker/mqtt" "ESP32_Client" "user" "pass" 60 true healthy fresh
      = Done (true, w1)
    ∧ established (trace w1) = Some session
    ∧ last_will session = no_will
    ∧ setWill "lwt/topic" MqttMore.payload_with_nul 1 true healthy w1 = Done (tt, w2)
    ∧ trace w2 = trace w1
    ∧ established (trace w2) = Some session
    ∧ _client (self w2) = _client (self w1)
    ∧ configure "ws://broker/mqtt" "ESP32_Client" "user" "pass" 60 true healthy w2
        = Done (result, w3)
    ∧ established (trace w3) = Some session'
    ∧ last_will session' = (Some "lwt/topic"%string, Some "offline"%string, 1, 1).
Proof.
  eexists. 
  assert (configure "ws://broker/mqtt" "ESP32_Client" "user" "pass" 60 true healthy fresh
            = Done (true, _)) as Hconf by (vm_compute; reflexivity).
  destruct (setWill_takes_effect_at_next_configure healthy fresh _
              "ws://broker/mqtt" "ESP32_Client" "user" "pass" 60 true
              "lwt/topic" MqttMore.payload_with_nul 1 true
              "ws://broker/mqtt" "ESP32_Client" "user" "pass" 60 true Hconf)
    as (session & w2 & result & w3 & session' & H).
  exists session, w2, result, w3, session'. split; [exact Hconf|]. exact H.
Defined.

(** The claim as the specification words it fails when the stored topic
    is empty: [setWill] stores a payload, QoS 1 and the retain flag, and
    the next [configure] sends a request with no last will at all. *)
Lemma configure_skips_will_with_empty_topic :
  ∃ w1 w2 w3 session',
    configure "ws://broker/mqtt" "ESP32_Client" "user" "pass" 60 true healthy fresh
      = Done (true, w1)
    ∧ setWill EmptyString "offline" 1 true healthy w1 = Done (tt, w2)
    ∧ stored_will (self w2) = (Some EmptyString, Some "offline"%string, 1, 1)
    ∧ configure "ws://broker/mqtt" "ESP32_Client" "user" "pass" 60 true healthy w2
        = Done (true, w3)
    ∧ established (trace w3) = Some session'
    ∧ last_will session' = (None, None, 0, 0)
    ∧ last_will session' ≠ stored_will (self w2).
Proof.
  do 4 eexists. split; [vm_compute; reflexivity|].
  split; [vm_compute; reflexivity|]. split; [reflexivity|].
  split; [vm_compute; reflexivity|]. split; [reflexivity|].
  split; [reflexivity|]. discriminate.
Qed.

(** *** Calls without a client *)

(** Without a client handle the four calls return -1 and do nothing at
    all: same manager, same trace. *)
Lemma calls_without_client env w :
  unconfigured (self w) →
  (∀ topic payload qos retain,
      publish topic payload qos retain env w = Done (-1, w))
  ∧ (∀ topic data len qos retain,
      publish_binary topic data len qos retain env w = Done (-1, w))
  ∧ (∀ topic qos, subscribe topic qos env w = Done (-1, w))
  ∧ (∀ topic, unsubscribe topic env w = Done (-1, w)).
Proof.
  intros Hnull. unfold publish, publish_binary, subscribe, unsubscribe.
  run_method. rewrite Hnull. repeat split.
Qed.

(** Only a [configure] that succeeds gives the manager a client. *)
Lemma perform_keeps_unconfigured a env w r w' :
  unconfigured (self w) →
  perform a env w = Done (r, w') →
  configured (a, r) = false →
  unconfigured (self w').
Proof.
  intros Hnull Hrun Hnot. destruct a;
    try solve
      [ refine ((_ : keeps unconfigured (perform _)) env w r w' Hnull Hrun);
        simpl; unfold init, setWill, connect, disconnect, publish, publish_binary,
          subscribe, unsubscribe, setEventCallback, getStatus, getBrokerUri,
          getClientId, eventHandlerCb;
        try match goal with |- context [match ?e with _ => _ end] =>
              is_var e; destruct e end;
        keeps_auto; try (intros [] H; exact H) ].
  simpl in Hrun. apply bind_Done in Hrun as (b & w1 & Hconf & Hret).
  injection Hret as <- <-.
  match type of Hconf with
  | configure ?u ?c ?n ?p ?k ?s env w = _ =>
      destruct (configure_runs env w u c n p k s)
        as (req & w2 & Hrun & _ & _ & _ & _ & Hclient & _)
  end.
  rewrite Hconf in Hrun. injection Hrun as Hb <-.
  unfold unconfigured. rewrite Hclient.
  simpl in Hnot. rewrite Hb in Hnot.
  destruct (is_null (code (env (esp_mqtt_client_init req :: trace w)))) eqn:E;
    [|discriminate].
  unfold is_null in E. apply Z.eqb_eq in E. exact E.
Qed.

Lemma run_extends env actions :
  ∀ done w done' w',
    run env actions done w = Some (done', w') → ∃ recent, done' = recent ++ done.
Proof.
  induction actions as [|a rest IH]; intros done w done' w'; simpl.
  - intros [= <- _]. exists []. reflexivity.
  - destruct (perform a env w) as [[r w1]|h]; [|discriminate].
    intros Hrun. apply IH in Hrun as [recent ->].
    exists (recent ++ [(a, r)]). rewrite <- app_assoc. reflexivity.
Qed.

Lemma run_keeps_unconfigured env actions :
  ∀ done w done' w',
    unconfigured (self w) →
    run env actions done w = Some (done', w') →
    existsb configured done' = false →
    unconfigured (self w').
Proof.
  induction actions as [|a rest IH]; intros done w done' w' Hnull; simpl.
  - intros [= _ <-] _. exact Hnull.
  - destruct (perform a env w) as [[r w1]|h] eqn:Hstep; [|discriminate].
    intros Hrun Hnone. eapply IH; [|exact Hrun|exact Hnone].
    eapply perform_keeps_unconfigured; [exact Hnull|exact Hstep|].
    apply run_extends in Hrun as [recent ->].
    rewrite existsb_app in Hnone. apply orb_false_elim in Hnone as [_ Hnone].
    simpl in Hnone. apply orb_false_elim in Hnone as [Hnone _]. exact Hnone.
Qed.

(** C4: after any sequence of calls and events on a new manager in which
    no [configure] succeeded, there is no client handle, and [publish]
    (text and binary), [subscribe] and [unsubscribe] each return -1 and
    leave the manager (status, URI, client id, last-will fields) and the
    SDK (no call made) exactly as they were. *)
Theorem calls_before_configure_fail (env : Env Call) (actions : list Action)
    (done : list (Action * Z)) (w : World Call MqttClient) :
  run env actions [] fresh = Some (done, w) →
  existsb configured done = false →
  _client (self w) = nullptr
  ∧ (∀ topic payload qos retain,
       publish topic payload qos retain env w = Done (-1, w))
  ∧ (∀ topic data len qos retain,
       publish_binary topic data len qos retain env w = Done (-1, w))
  ∧ (∀ topic qos, subscribe topic qos env w = Done (-1, w))
  ∧ (∀ topic, unsubscribe topic env w = Done (-1, w)).
Proof.
  intros Hrun Hnone.
  assert (unconfigured (self w)) as Hnull.
  { eapply run_keeps_unconfigured; [|exact Hrun|exact Hnone]. reflexivity. }
  split; [exact Hnull|]. apply calls_without_client, Hnull.
Qed.

(** A manager whose [configure] failed for lack of memory, after which the
    application set a last will, tried to connect and to publish. *)
Lemma calls_before_configure_fail_witness :
  ∃ done w,
    run out_of_memory
        [do_configure "ws://broker/mqtt" "ESP32_Client" "user" "pass" 60 true;
         do_setWill "lwt/topic" "Device disconnected" 1 true;
         do_connect;
         do_publish "test/topic" "1" 1 true] [] fresh = Some (done, w)
    ∧ _client (self w) = nullptr
    ∧ _status (self w) = ERROR
    ∧ publish "test/topic" "2" 1 true out_of_memory w = Done (-1, w)
    ∧ publish_binary "test/topic" 1073610000 4 0 false out_of_memory w = Done (-1, w)
    ∧ subscribe "test/subscribe" 1 out_of_memory w = Done (-1, w)
    ∧ unsubscribe "test/subscribe" out_of_memory w = Done (-1, w).
Proof.
  do 2 eexists. split; [vm_compute; reflexivity|].
  destruct (calls_before_configure_fail out_of_memory
              [do_configure "ws://broker/mqtt" "ESP32_Client" "user" "pass" 60 true;
               do_setWill "lwt/topic" "Device disconnected" 1 true;
               do_connect;
               do_publish "test/topic" "1" 1 true] _ _ eq_refl eq_refl)
    as (Hclient & Hpub & Hbin & Hsub & Hunsub).
  split; [exact Hclient|]. split; [reflexivity|].
  split; [apply Hpub|]. split; [apply Hbin|]. split; [apply Hsub | apply Hunsub].
Defined.

(** *** Events *)

(** C5: the event handler always returns; the status afterwards is the
    one the specification's table gives (BeforeConnect: Connecting,
    Connected: Connected, Disconnected: Disconnected, Error: Error, any
    other event, in particular Subscribed, Unsubscribed, Published and
    Data: unchanged) and nothing else in the manager changes; a
    registered observer is invoked exactly once, with the event and the
    user data, while the manager already holds the new status; without
    an observer nothing is invoked. *)
Theorem eventHandlerCb_updates_then_notifies (env : Env Call)
    (w : World Call MqttClient) (eventId : esp_mqtt_event_id_t) (event : ptr) :
  (∃ w', eventHandlerCb eventId event env w = Done (tt, w')
         ∧ self w' = set_status (status_after eventId (_status (self w))) (self w)
         ∧ trace w'
           = (if is_null (_userCallback (self w)) then []
              else [userCallback (_userCallback (self w)) event (_userData (self w))
                                 (status_after eventId (_status (self w)))])
             ++ trace w)
  ∧ (∀ before,
       status_after MQTT_EVENT_BEFORE_CONNECT before = CONNECTING
       ∧ status_after MQTT_EVENT_CONNECTED before = CONNECTED
       ∧ status_after MQTT_EVENT_DISCONNECTED before = DISCONNECTED
       ∧ status_after MQTT_EVENT_ERROR before = ERROR
       ∧ status_after MQTT_EVENT_SUBSCRIBED before = before
       ∧ status_after MQTT_EVENT_UNSUBSCRIBED before = before
       ∧ status_after MQTT_EVENT_PUBLISHED before = before
       ∧ status_after MQTT_EVENT_DATA before = before).
Proof.
  split; [|intros before; repeat split].
  destruct w as [m tr]. destruct m. cbn.
  destruct eventId; unfold eventHandlerCb; run_method; cbn;
    match goal with |- context [is_null ?p] => destruct (is_null p) end; cbn;
    eexists; repeat split; reflexivity.
Qed.

End MqttFacts.

(** ** GpioManager *)

Section GpioFacts.
Import GPIO.

(** [init] returns, and never touches the callback table. *)
Lemma init_runs env w :
  ∃ ok w', init env w = Done (ok, w') ∧ _configs (self w') = _configs (self w).
Proof.
  unfold init. run_method.
  destruct (_initialized (self w)); cbn; [eauto|].
  match goal with |- context [code ?r =? ESP_OK] => destruct (code r =? ESP_OK) end;
    cbn; eauto.
Qed.

Lemma prepared_configs env w : _configs (self (prepared env w)) = _configs (self w).
Proof.
  unfold prepared. destruct (_initialized (self w)); [reflexivity|].
  destruct (init_runs env w) as (ok & w' & -> & H). exact H.
Qed.

(** [configurePin] up to the point where the SDK has answered the
    configuration request. *)
Lemma configurePin_prefix env w pin mode pu pd intr callback od drive :
  (0 <=? pin) && (pin <? 64) = true →
  configurePin pin mode pu pd intr callback od drive env w
  = (r ← sdk (gpio_config (request pin mode pu pd intr od));
     if negb (code r =? ESP_OK) then mret false else
     _ ← sdk (gpio_set_drive_capability pin drive);
     when (negb (bool_decide (intr = NONE)) && bool_decide (is_Some callback))
          ((if in_table pin then modify (set_cb pin callback) else halt Undefined);;
           _ ← sdk (gpio_isr_handler_add pin pin);
           mret tt);;
     mret true) env (prepared env w).
Proof.
  intros Hpin. unfold configurePin, prepared.
  cbv beta iota zeta delta [mbind M_bind bind this when]. cbn [self trace].
  destruct (_initialized (self w)) eqn:Hinit; cbn [negb].
  - cbv beta iota delta [mret M_ret pure]. rewrite Hpin. reflexivity.
  - destruct (init_runs env w) as (ok & w' & Hrun & _).
    cbv beta iota delta [mbind M_bind bind] in Hrun |- *. rewrite Hrun.
    cbv beta iota delta [mret M_ret pure]. rewrite Hpin. reflexivity.
Qed.

(** The interrupt trampoline on a pin without a callback reads the level
    and does nothing else. *)
Lemma isrHandler_without_callback env w pin :
  in_table pin = true →
  cb <$> _configs (self w) !! Z.to_nat pin = Some None →
  isrHandler pin env w = Done (tt, mkWorld (self w) (gpio_get_level pin :: trace w)).
Proof.
  intros Hpin Hcb. unfold isrHandler. run_method. rewrite Hpin. cbn.
  destruct (_configs (self w) !! Z.to_nat pin) as [[[f|]]|]; try discriminate.
  reflexivity.
Qed.

(** C3, as the code has it, for a pin of the table (0 to 39).
    [configurePin] with trigger [NONE] and no callback returns and leaves
    the whole callback table as it was; so when no callback was
    registered for the pin before, none is afterwards, and an interrupt
    dispatched for the pin reads the level and invokes nothing.  When
    the SDK rejects the configuration request, [configurePin] returns
    [false], whatever trigger and callback it was given, and the table
    is as it was. *)
Theorem configurePin_registers_nothing (env : Env Call) (w : World Call GpioManager)
    (pin : Z) (mode : PinMode) (pull_up pull_down : bool) (intr : InterruptTrigger)
    (callback : GpioCallback) (open_drain : bool) (drive : DriveStrength) :
  in_table pin = true →
  (∃ ok w',
      configurePin pin mode pull_up pull_down NONE None open_drain drive env w
        = Done (ok, w')
      ∧ _configs (self w') = _configs (self w)
      ∧ (cb <$> _configs (self w) !! Z.to_nat pin = Some None →
         cb <$> _configs (self w') !! Z.to_nat pin = Some None
         ∧ isrHandler pin env w'
           = Done (tt, mkWorld (self w') (gpio_get_level pin :: trace w'))))
  ∧ (code (env (gpio_config (request pin mode pull_up pull_down intr open_drain)
                :: trace (prepared env w))) ≠ ESP_OK →
     ∃ w',
       configurePin pin mode pull_up pull_down intr callback open_drain drive env w
         = Done (false, w')
       ∧ _configs (self w') = _configs (self w)).
Proof.
  intros Hpin.
  assert ((0 <=? pin) && (pin <? 64) = true) as Hshift.
  { unfold in_table, GPIO_NUM_MAX in Hpin. lia. }
  split.
  - rewrite configurePin_prefix by exact Hshift. run_method. cbn.
    match goal with |- context [negb ?b] => destruct (negb b) end;
      do 2 eexists; (split; [reflexivity|]); cbn [self trace];
      rewrite prepared_configs; (split; [reflexivity|]);
      intros Hcb; (split; [exact Hcb|]);
      apply isrHandler_without_callback; cbn [self trace];
      [exact Hpin | rewrite prepared_configs; exact Hcb
      |exact Hpin | rewrite prepared_configs; exact Hcb].
  - intros Hfail. rewrite configurePin_prefix by exact Hshift. run_method.
    apply Z.eqb_neq in Hfail. rewrite Hfail. cbn.
    eexists. split; [reflexivity|]. cbn. apply prepared_configs.
Qed.

(** On a new manager: pin 4 configured as a plain output has no
    callback and its interrupt invokes nothing; making input-only pin 36
    an output with a rising-edge callback is rejected and registers
    nothing. *)
Lemma configurePin_registers_nothing_witness :
  (∃ ok w',
      configurePin 4 OUTPUT false false NONE None false _2 healthy fresh = Done (ok, w')
      ∧ _configs (self w') = _configs (self fresh)
      ∧ cb <$> _configs (self w') !! Z.to_nat 4 = Some None
      ∧ isrHandler 4 healthy w'
        = Done (tt, mkWorld (self w') (gpio_get_level 4 :: trace w')))
  ∧ (∃ w',
      configurePin 36 OUTPUT false false RISING (Some 7) false DEFAULT healthy fresh
        = Done (false, w')
      ∧ _configs (self w') = _configs (self fresh)).
Proof.
  split.
  - destruct (configurePin_registers_nothing healthy fresh 4 OUTPUT false false
                NONE None false _2 eq_refl) as [(ok & w' & Hrun & Hsame & Hisr) _].
    exists ok, w'. split; [exact Hrun|]. split; [exact Hsame|].
    apply Hisr. reflexivity.
  - destruct (configurePin_registers_nothing healthy fresh 36 OUTPUT false false
                RISING (Some 7) false DEFAULT eq_refl) as [_ Hfail].
    apply Hfail. vm_compute. discriminate.
Defined.

(** The claim as the specification words it fails for a pin that already
    has a callback: configuring pin 4 with a rising-edge callback and then
    again with trigger [NONE] and no callback leaves the callback in the
    table, and an interrupt dispatched for pin 4 invokes it. *)
Lemma configurePin_keeps_stale_callback :
  ∃ w w',
    run healthy [do_configurePin 4 INPUT true false RISING (Some 7) false DEFAULT;
                 do_configurePin 4 INPUT true false NONE None false DEFAULT] fresh
      = Some w
    ∧ cb <$> _configs (self w) !! Z.to_nat 4 = Some (Some 7)
    ∧ isrHandler 4 healthy w = Done (tt, w')
    ∧ trace w' = callback 7 4 0 :: gpio_get_level 4 :: trace w.
Proof.
  do 2 eexists. split; [vm_compute; reflexivity|].
  split; [reflexivity|]. split; [vm_compute; reflexivity|]. reflexivity.
Qed.

(** *** Levels *)

(** C8: [toggle] reads the level of the pin and writes its complement.
    If [before] is the level a read at the moment of the call observes,
    and the pin shows what is written to it until it is read again, then
    [toggle] makes one read and one write of the complement of [before],
    which is 1 when [before] is 0 and 0 otherwise, and [getLevel] right
    after it returns that complement; the manager itself is untouched. *)
Theorem toggle_then_getLevel (env : Env Call) (w w0 : World Call GpioManager)
    (pin before : Z) :
  getLevel pin env w = Done (before, w0) →
  reads_back env (trace w0) pin →
  ∃ w1 w2,
    toggle pin env w = Done (tt, w1)
    ∧ self w1 = self w
    ∧ trace w1
      = gpio_set_level pin (if before =? 0 then 1 else 0)
        :: gpio_get_level pin :: trace w
    ∧ getLevel pin env w1 = Done (if before =? 0 then 1 else 0, w2)
    ∧ trace w2 = gpio_get_level pin :: trace w1.
Proof.
  unfold getLevel, toggle, setLevel, getLevel. run_method.
  intros [= <- <-] Hback. cbn in Hback.
  set (before := code (env (gpio_get_level pin :: trace w))) in *.
  set (written := gpio_set_level pin (lnot before) :: gpio_get_level pin :: trace w).
  exists (mkWorld (self w) written),
         (mkWorld (self w) (gpio_get_level pin :: written)).
  split; [reflexivity|]. split; [reflexivity|].
  split; [subst written; unfold lnot; reflexivity|].
  split; [|reflexivity].
  subst written. cbn [self trace]. rewrite Hback. do 2 f_equal.
  unfold lnot. destruct (before =? 0); reflexivity.
Qed.

(** In the model of the pins every write reads back. *)
Lemma healthy_reads_back tr pin : reads_back healthy tr pin.
Proof. intros level. cbn. rewrite Z.eqb_refl. reflexivity. Qed.

(** The scenario of the specification: pin 4 an output with drive
    strength 2, driven high and read as 1; after [toggle] it reads 0, and
    after a second [toggle] it reads 1 again. *)
Lemma toggle_then_getLevel_witness :
  run healthy [do_configurePin 4 OUTPUT false false NONE None false _2;
               do_setLevel 4 1] fresh = Some pin4_high
  ∧ ∃ w0 w1 w2 w3 w4,
      getLevel 4 healthy pin4_high = Done (1, w0)
      ∧ toggle 4 healthy pin4_high = Done (tt, w1)
      ∧ trace w1 = gpio_set_level 4 0 :: gpio_get_level 4 :: trace pin4_high
      ∧ getLevel 4 healthy w1 = Done (0, w2)
      ∧ toggle 4 healthy w1 = Done (tt, w3)
      ∧ trace w3 = gpio_set_level 4 1 :: gpio_get_level 4 :: trace w1
      ∧ getLevel 4 healthy w3 = Done (1, w4).
Proof.
  split; [vm_compute; reflexivity|].
  pose (w0 := mkWorld (self pin4_high) (gpio_get_level 4 :: trace pin4_high)).
  assert (getLevel 4 healthy pin4_high = Done (1, w0)) as Hget by reflexivity.
  destruct (toggle_then_getLevel healthy pin4_high w0 4 1 Hget
              (healthy_reads_back _ 4))
    as (w1 & w2 & Htoggle & _ & Htrace & Hafter & Htrace2).
  destruct (toggle_then_getLevel healthy w1 w2 4 0 Hafter (healthy_reads_back _ 4))
    as (w3 & w4 & Htoggle' & _ & Htrace' & Hafter' & _).
  exists w0, w1, w2, w3, w4.
  split; [exact Hget|]. split; [exact Htoggle|]. split; [exact Htrace|].
  split; [exact Hafter|]. split; [exact Htoggle'|]. split; [exact Htrace'|].
  exact Hafter'.
Defined.

End GpioFacts.

(** ** ADCManager *)

Section AdcFacts.
Import ADC.

(** Without a calibration scheme, [readOneShotVoltage] reports what
    [readOneShot] reports: the same status; on success the raw value (0,
    the initial value of the local, if the SDK stored none), and nothing
    stored on failure. *)
Lemma readOneShotVoltage_uncalibrated env w unit channel :
  cali_handle (self w) = nullptr →
  ∃ ret stored w',
    readOneShot unit channel env w = Done ((ret, stored), w')
    ∧ readOneShotVoltage unit channel env w
      = Done ((ret, if ret =? ESP_OK then Some (default 0 stored) else None), w').
Proof.
  intros Hcali. unfold readOneShotVoltage, readOneShot. run_method.
  destruct (is_null (one_shot_unit_handle (self w))); cbn.
  - do 3 eexists. split; reflexivity.
  - match goal with |- context [code ?r =? ESP_OK] =>
      destruct (code r =? ESP_OK) eqn:E end; cbn; rewrite ?Hcali; cbn;
      do 3 eexists; (split; [reflexivity|]); rewrite E;
      [apply Z.eqb_eq in E; rewrite E|]; reflexivity.
Qed.

(** C7: when there is no calibration scheme and [readOneShot] succeeds,
    storing the raw sample [raw], then on the same manager and the same
    sample [readOneShotVoltage] succeeds too and stores the very same
    number: the raw value is passed through, without any call to the
    SDK's conversion. *)
Theorem readOneShotVoltage_passthrough (env : Env Call) (w w' : World Call ADCManager)
    (unit : adc_unit_t) (channel : adc_channel_t) (raw : Z) :
  cali_handle (self w) = nullptr →
  readOneShot unit channel env w = Done ((ESP_OK, Some raw), w') →
  readOneShotVoltage unit channel env w = Done ((ESP_OK, Some raw), w').
Proof.
  intros Hcali Hread.
  destruct (readOneShotVoltage_uncalibrated env w unit channel Hcali)
    as (ret & stored & w1 & Hread' & Hvolt).
  rewrite Hread in Hread'. injection Hread' as <- <- <-. exact Hvolt.
Qed.

(** On a chip without calibration data, after [configOneShot], both reads
    give the raw sample 2048. *)
Lemma readOneShotVoltage_passthrough_witness :
  configOneShot 1 6 12 3 uncalibrated fresh = Done (ESP_OK, one_shot_uncalibrated)
  ∧ ∃ w',
      readOneShot 1 6 uncalibrated one_shot_uncalibrated = Done ((ESP_OK, Some 2048), w')
      ∧ readOneShotVoltage 1 6 uncalibrated one_shot_uncalibrated
        = Done ((ESP_OK, Some 2048), w').
Proof.
  split; [vm_compute; reflexivity|].
  eexists. 
  assert (readOneShot 1 6 uncalibrated one_shot_uncalibrated
          = Done ((ESP_OK, Some 2048), _)) as Hread by reflexivity.
  split; [exact Hread|].
  apply readOneShotVoltage_passthrough; [reflexivity | exact Hread].
Defined.

End AdcFacts.

(** ** Rules for invariants of worlds *)

Section WorldRules.
Context {Call St : Type}.
Implicit Types I : World Call St → Prop.

Lemma stays_pure {A} I (a : A) : stays I (mret a : M Call St A).
Proof. intros env w a' w' HI [= _ <-]. exact HI. Qed.

Lemma stays_bind {A B} I (c : M Call St A) (k : A → M Call St B) :
  stays I c → (∀ a, stays I (k a)) → stays I (c ≫= k).
Proof.
  intros Hc Hk env w b w' HI Hrun.
  apply bind_Done in Hrun as (a & w1 & H1 & H2).
  eapply Hk; [|exact H2]. eapply Hc; eauto.
Qed.

Lemma stays_this I : stays I (this : M Call St St).
Proof. intros env w a w' HI [= _ <-]. exact HI. Qed.

Lemma stays_sdk I (c : Call) :
  (∀ w, I w → I (mkWorld (self w) (c :: trace w))) → stays I (sdk c).
Proof. intros H env w a w' HI [= _ <-]. apply H, HI. Qed.

Lemma stays_halt {A} I h : stays I (halt h : M Call St A).
Proof. intros env w a w' _ [=]. Qed.

Lemma stays_modify I (f : St → St) :
  (∀ w, I w → I (mkWorld (f (self w)) (trace w))) → stays I (modify f).
Proof. intros H env w a w' HI [= _ <-]. apply H, HI. Qed.

Lemma stays_check I r : stays I (ESP_ERROR_CHECK r : M Call St unit).
Proof.
  unfold ESP_ERROR_CHECK. destruct (code r =? ESP_OK);
    [apply (stays_pure I tt) | apply stays_halt].
Qed.

Lemma stays_filled I r : stays I (filled r : M Call St Z).
Proof.
  unfold filled. destruct (written r); [apply (stays_pure I) | apply stays_halt].
Qed.

Lemma stays_when I b (c : M Call St unit) : stays I c → stays I (when b c).
Proof. intros Hc. destruct b; [exact Hc | apply (stays_pure I tt)]. Qed.

Lemma stays_if {A} I (b : bool) (c1 c2 : M Call St A) :
  stays I c1 → stays I c2 → stays I (if b then c1 else c2).
Proof. destruct b; auto. Qed.

(** An invariant of the manager alone is an invariant of the world. *)
Lemma keeps_stays {A} (P : St → Prop) (c : M Call St A) :
  keeps P c → stays (λ w, P (self w)) c.
Proof. intros H env w a w' HP Hrun. exact (H env w a w' HP Hrun). Qed.

End WorldRules.

Create HintDb stays discriminated.

(** Breaks a method body down to its calls and assignments, which are
    left as goals about one step of the world. *)
Ltac stays_step :=
  first
    [ progress cbv zeta
    | apply stays_bind; [|intros ?]
    | apply stays_if
    | apply stays_when
    | apply stays_check
    | apply stays_filled
    | apply stays_halt
    | apply stays_this
    | apply stays_sdk
    | apply stays_modify
    | refine (stays_pure _ _)
    | solve [auto with stays] ].
Ltac stays_auto := repeat stays_step.



(** Splits a hypothesis on every test that the run went through. *)
Ltac branches H :=
  repeat match type of H with
         | context [if ?b then _ else _] => destruct b eqn:?; cbn -[strncpy] in H
         end.

(** ** WiFiManager: initialisation, roles, events *)

Section WiFiMore.
Import WiFi WiFiC.

(** What [init] leaves behind: it reports whether the manager is
    initialised afterwards, does nothing at all on an initialised
    manager, and only marks the manager initialised with three non-null
    handles in place. *)
Lemma init_handles env w r w' :
  handles_ok (self w) →
  init env w = Done (r, w') →
  handles_ok (self w') ∧ r = _initialized (self w')
  ∧ (_initialized (self w) = true → w' = w).
Proof.
  unfold init. run_method. intros Hok H.
  destruct (_initialized (self w)) eqn:Hinit; cbn in H.
  - injection H as <- <-. rewrite Hinit. auto.
  - unfold is_null in H. branches H; try discriminate H;
      injection H as <- <-; cbn; rewrite ?Hinit;
      (split; [|split; [reflexivity|discriminate]]);
      unfold handles_ok; cbn; intros Hi; try congruence.
    all: rewrite ?orb_false_iff in *; unfold nullptr;
      repeat match goal with H : _ ∧ _ |- _ => destruct H end;
      repeat match goal with H : (_ =? 0) = false |- _ => apply Z.eqb_neq in H end;
      auto.
Qed.

Lemma init_keeps_handles : keeps handles_ok init.
Proof. intros env w r w' Hok Hrun. apply (init_handles env w r w' Hok Hrun). Qed.
#[local] Hint Resolve init_keeps_handles : keeps.

Ltac keeps_hinted := repeat first [solve [auto with keeps] | keeps_step].

Lemma perform_keeps_handles a : keeps handles_ok (perform a).
Proof.
  destruct a; simpl;
    try match goal with |- context [wifiEventHandler ?e] => destruct e end;
    unfold configureStation, configureAP, start, stop, getStatus,
      getIPAddress, getAPIPAddress, setEventCallback, waitForConnection,
      scanNetworks, wifiEventHandler, notify, initialized_or_init;
    keeps_hinted; try (intros [] H; exact H).
Qed.

Lemma run_keeps (P : WiFiManager → Prop) env actions :
  (∀ a, In a actions → keeps P (perform a)) →
  ∀ w w', P (self w) → run env actions w = Some w' → P (self w').
Proof.
  induction actions as [|a rest IH]; intros Hall w w' HP; simpl.
  - intros [= <-]. exact HP.
  - destruct (perform a env w) as [[[] w1]|h] eqn:Hstep; [|discriminate].
    apply IH; [intros b Hb; apply Hall; right; exact Hb|].
    exact (Hall a (or_introl eq_refl) env w tt w1 HP Hstep).
Qed.

(** X1: however the SDK behaves and whatever is called, a manager that
    counts as initialised holds a non-null event group and non-null
    station and access-point interfaces. *)
Theorem initialized_has_handles (env : Env Call) (actions : list Action)
    (w : World Call WiFiManager) :
  run env actions fresh = Some w →
  _initialized (self w) = true →
  s_wifi_event_group (self w) ≠ nullptr
  ∧ _staNetif (self w) ≠ nullptr ∧ _apNetif (self w) ≠ nullptr.
Proof.
  intros Hrun. change (handles_ok (self w)).
  refine (run_keeps handles_ok env actions _ fresh w _ Hrun);
    [intros a _; apply perform_keeps_handles | intros H; discriminate H].
Qed.

Lemma initialized_has_handles_witness :
  ∃ w, run healthy [do_configureStation "net" "pw" "esp32"; do_start] fresh = Some w
       ∧ s_wifi_event_group (self w) ≠ nullptr
       ∧ _staNetif (self w) ≠ nullptr ∧ _apNetif (self w) ≠ nullptr.
Proof.
  eexists. split; [vm_compute; reflexivity|].
  apply (initialized_has_handles healthy
           [do_configureStation "net" "pw" "esp32"; do_start]);
    vm_compute; reflexivity.
Defined.

(** [init] reports whether the manager is initialised afterwards, and
    does nothing on an initialised manager. *)
Lemma init_reports env w r w' :
  init env w = Done (r, w') →
  r = _initialized (self w') ∧ (_initialized (self w) = true → w' = w).
Proof.
  unfold init. run_method. intros H.
  destruct (_initialized (self w)) eqn:Hinit; cbn in H.
  - injection H as <- <-. rewrite Hinit. auto.
  - branches H; try discriminate H; injection H as <- <-; cbn; rewrite ?Hinit;
      split; solve [reflexivity | discriminate].
Qed.

(** X2: initialisation happens once.  After an [init] that returned
    [true], a further [init], and the guard that opens [configureStation],
    [configureAP], [start] and [scanNetworks], return [true] without a
    single SDK call and without touching the manager. *)
Theorem init_is_idempotent (env : Env Call) (w w1 : World Call WiFiManager) :
  init env w = Done (true, w1) →
  init env w1 = Done (true, w1) ∧ initialized_or_init env w1 = Done (true, w1).
Proof.
  intros Hrun. apply init_reports in Hrun as [Hinit _].
  unfold initialized_or_init, init. run_method. rewrite <- Hinit. split; reflexivity.
Qed.

Lemma init_is_idempotent_witness :
  ∃ w1, init healthy fresh = Done (true, w1)
        ∧ init healthy w1 = Done (true, w1)
        ∧ initialized_or_init healthy w1 = Done (true, w1).
Proof.
  eexists. split; [vm_compute; reflexivity|].
  apply init_is_idempotent with (w := fresh). vm_compute. reflexivity.
Defined.

(** Only an event makes the status [CONNECTED]. *)
Lemma perform_keeps_not_connected a :
  is_event a = false → keeps not_connected (perform a).
Proof.
  intros Hev. destruct a; try discriminate Hev; simpl;
    unfold configureStation, configureAP, start, stop, getStatus,
      getIPAddress, getAPIPAddress, setEventCallback, waitForConnection,
      scanNetworks;
    keeps_auto;
    try (intros [] H; first [exact H | unfold not_connected; simpl; tauto]).
Qed.

(** X3: the public methods never report a connection by themselves.  As
    long as no SDK event has been handled, the status is [DISCONNECTED]
    or [CONNECTING], [getIPAddress] returns the empty text without asking
    the SDK, and [wifi_get_ip_address] returns 0 and copies nothing. *)
Theorem no_connection_without_events (env : Env Call) (actions : list Action)
    (w : World Call WiFiManager) (buffer_size : Z) :
  run env actions fresh = Some w →
  existsb is_event actions = false →
  (_status (self w) = DISCONNECTED ∨ _status (self w) = CONNECTING)
  ∧ getIPAddress env w = Done (EmptyString, w)
  ∧ wifi_get_ip_address buffer_size env w = Done ((0, None), w).
Proof.
  intros Hrun Hnone.
  assert (not_connected (self w)) as Hst.
  { refine (run_keeps not_connected env actions _ fresh w _ Hrun);
      [|left; reflexivity].
    intros a Ha. apply perform_keeps_not_connected.
    rewrite <- not_true_iff_false, existsb_exists in Hnone.
    destruct (is_event a) eqn:E; [|reflexivity]. exfalso. eauto. }
  split; [exact Hst|].
  assert (getIPAddress env w = Done (EmptyString, w)) as Hip.
  { unfold getIPAddress. run_method.
    destruct Hst as [-> | ->]; reflexivity. }
  split; [exact Hip|].
  unfold wifi_get_ip_address. run_method. rewrite Hip. reflexivity.
Qed.

Lemma no_connection_without_events_witness :
  ∃ w, run healthy [do_configureStation "net" "pw" "esp32"; do_start;
                    do_waitForConnection 10 30000] fresh = Some w
       ∧ (_status (self w) = DISCONNECTED ∨ _status (self w) = CONNECTING)
       ∧ getIPAddress healthy w = Done (EmptyString, w)
       ∧ wifi_get_ip_address 16 healthy w = Done ((0, None), w).
Proof.
  eexists. split; [vm_compute; reflexivity|].
  apply (no_connection_without_events healthy
           [do_configureStation "net" "pw" "esp32"; do_start;
            do_waitForConnection 10 30000]); vm_compute; reflexivity.
Defined.

(** *** Who assigns what *)

Ltac frame_by_cases a Hw :=
  destruct a; try discriminate Hw; simpl;
    try match goal with |- context [wifiEventHandler ?e] => destruct e end;
    unfold configureStation, configureAP, start, stop, getStatus,
      getIPAddress, getAPIPAddress, setEventCallback, waitForConnection,
      scanNetworks, wifiEventHandler, notify;
    keeps_auto; try (intros [] H; exact H).

Lemma perform_keeps_station v a :
  writes_station a = false →
  keeps (λ m, (_stationSSID m, _stationPassword m) = v) (perform a).
Proof. intros Hw. frame_by_cases a Hw. Qed.

Lemma perform_keeps_ap v a :
  writes_ap a = false →
  keeps (λ m, (_apSSID m, _apPassword m) = v) (perform a).
Proof. intros Hw. frame_by_cases a Hw. Qed.

Lemma perform_keeps_mode v a :
  writes_station a || writes_ap a = false →
  keeps (λ m, _mode m = v) (perform a).
Proof. intros Hw. frame_by_cases a Hw. Qed.

Lemma perform_keeps_the_status v a :
  writes_status a = false →
  keeps (λ m, _status m = v) (perform a).
Proof. intros Hw. frame_by_cases a Hw. Qed.

Lemma perform_keeps_callback v a :
  writes_callback a = false →
  keeps (λ m, (_eventCallback m, _userCallbackData m) = v) (perform a).
Proof. intros Hw. frame_by_cases a Hw. Qed.

(** X4: each setting has its writers, whatever the SDK answers.  The
    station credentials are assigned by [configureStation] only, the
    access-point credentials by [configureAP] only, the mode by these two
    only, the status by [start], [stop] and the event handler only, and
    the observer by [setEventCallback] only; in particular [init],
    [scanNetworks], [waitForConnection] and the getters change none. *)
Theorem settings_have_their_writers (env : Env Call) (a : Action)
    (w w' : World Call WiFiManager) :
  perform a env w = Done (tt, w') →
  (writes_station a = false →
     _stationSSID (self w') = _stationSSID (self w)
     ∧ _stationPassword (self w') = _stationPassword (self w))
  ∧ (writes_ap a = false →
     _apSSID (self w') = _apSSID (self w) ∧ _apPassword (self w') = _apPassword (self w))
  ∧ (writes_station a || writes_ap a = false → _mode (self w') = _mode (self w))
  ∧ (writes_status a = false → _status (self w') = _status (self w))
  ∧ (writes_callback a = false →
     _eventCallback (self w') = _eventCallback (self w)
     ∧ _userCallbackData (self w') = _userCallbackData (self w)).
Proof.
  intros Hrun. split; [|split; [|split; [|split]]]; intros Hw.
  - pose proof (perform_keeps_station _ a Hw env w tt w' eq_refl Hrun) as [= -> ->].
    split; reflexivity.
  - pose proof (perform_keeps_ap _ a Hw env w tt w' eq_refl Hrun) as [= -> ->].
    split; reflexivity.
  - exact (perform_keeps_mode _ a Hw env w tt w' eq_refl Hrun).
  - exact (perform_keeps_the_status _ a Hw env w tt w' eq_refl Hrun).
  - pose proof (perform_keeps_callback _ a Hw env w tt w' eq_refl Hrun) as [= -> ->].
    split; reflexivity.
Qed.

(** Configuring the access point on a new manager leaves the station
    credentials, the status and the observer alone. *)
Lemma settings_have_their_writers_witness :
  ∃ w',
    perform (do_configureAP "ap" "secret" 1 4) healthy fresh = Done (tt, w')
    ∧ (_stationSSID (self w') = _stationSSID (self fresh)
       ∧ _stationPassword (self w') = _stationPassword (self fresh))
    ∧ _status (self w') = _status (self fresh)
    ∧ (_eventCallback (self w') = _eventCallback (self fresh)
       ∧ _userCallbackData (self w') = _userCallbackData (self fresh)).
Proof.
  eexists. split; [vm_compute; reflexivity|].
  lazymatch goal with
  | |- (_stationSSID (self ?W) = _ ∧ _) ∧ _ =>
      destruct (settings_have_their_writers healthy
                  (do_configureAP "ap" "secret" 1 4) fresh W)
        as (Hs & _ & _ & Hst & Hcb); [vm_compute; reflexivity|]
  end.
  split; [exact (Hs eq_refl)|]. split; [exact (Hst eq_refl) | exact (Hcb eq_refl)].
Defined.

(** X5: a [configureStation] or [configureAP] that returns [false] has
    changed no setting: mode, status and both pairs of credentials are as
    before (it fails only while initialising, before any assignment). *)
Theorem failed_configure_changes_nothing (env : Env Call)
    (w w' : World Call WiFiManager) (ssid password hostname : string)
    (channel maxConnections : Z) :
  (configureStation ssid password hostname env w = Done (false, w') →
   settings (self w') = settings (self w))
  ∧ (configureAP ssid password channel maxConnections env w = Done (false, w') →
     settings (self w') = settings (self w)).
Proof.
  split; intros Hrun.
  - unfold configureStation in Hrun.
    apply bind_Done in Hrun as (ok & w1 & Hinit & Hrest).
    destruct ok.
    + revert Hrest. run_method. destruct (negb (empty hostname)); discriminate.
    + injection Hrest as <-.
      exact (initialized_or_init_keeps_settings _ env w false w1 eq_refl Hinit).
  - unfold configureAP in Hrun.
    apply bind_Done in Hrun as (ok & w1 & Hinit & Hrest).
    destruct ok.
    + revert Hrest. run_method. cbn.
      match goal with |- context [code ?r =? ESP_OK] => destruct (code r =? ESP_OK) end;
        discriminate.
    + injection Hrest as <-.
      exact (initialized_or_init_keeps_settings _ env w false w1 eq_refl Hinit).
Qed.

Lemma failed_configure_changes_nothing_witness :
  (∃ w', configureStation "net" "pw" "esp32" no_event_group fresh = Done (false, w')
         ∧ settings (self w') = settings (self fresh))
  ∧ (∃ w', configureAP "ap" "secret" 1 4 no_event_group fresh = Done (false, w')
           ∧ settings (self w') = settings (self fresh)).
Proof.
  split; eexists; (split; [vm_compute; reflexivity|]).
  - lazymatch goal with
    | |- settings (self ?W) = _ =>
        apply (proj1 (failed_configure_changes_nothing no_event_group fresh W
                        "net" "pw" "esp32" 1 4))
    end. vm_compute. reflexivity.
  - lazymatch goal with
    | |- settings (self ?W) = _ =>
        apply (proj2 (failed_configure_changes_nothing no_event_group fresh W
                        "ap" "secret" EmptyString 1 4))
    end. vm_compute. reflexivity.
Defined.

(** *** What reaches the radio *)

Lemma strncpy_length n s : (String.length (strncpy n s) ≤ n)%nat.
Proof.
  revert s. induction n as [|n IH]; intros [|c s]; simpl; try lia.
  destruct (Ascii.eqb c Ascii.zero); simpl; [lia|]. specialize (IH s). lia.
Qed.

#[local] Opaque strncpy.

(** X6: the access-point configuration that a successful [configureAP]
    hands to the SDK.  The SSID is cut to 31 characters (and at its first
    NUL) while [ssid_len] is the full length (modulo 256), so for an SSID
    of 32 to 255 characters the announced length exceeds the text; the
    network is open exactly when the password is empty, otherwise
    WPA2-PSK with the password cut to 63 characters; channel and number
    of connections are the arguments as [uint8_t], that is modulo 256
    (a channel 300 is sent as 44). *)
Theorem configureAP_request (env : Env Call) (w w' : World Call WiFiManager)
    (ssid password : string) (channel maxConnections : Z) :
  configureAP ssid password channel maxConnections env w = Done (true, w') →
  ∃ c older,
    trace w' = esp_wifi_set_config WIFI_IF_AP (ap c) :: older
    ∧ ap_ssid c = strncpy 31 ssid
    ∧ (String.length (ap_ssid c) ≤ 31)%nat
    ∧ ap_ssid_len c = Z.of_nat (String.length ssid) mod 256
    ∧ ((31 < String.length ssid < 256)%nat →
       Z.of_nat (String.length (ap_ssid c)) < ap_ssid_len c)
    ∧ ap_authmode c = (if empty password then WIFI_AUTH_OPEN else WIFI_AUTH_WPA2_PSK)
    ∧ ap_password c = (if empty password then EmptyString else strncpy 63 password)
    ∧ ap_channel c = channel mod 256
    ∧ ap_max_connection c = maxConnections mod 256
    ∧ 0 ≤ ap_channel c < 256
    ∧ 0 ≤ ap_max_connection c < 256.
Proof.
  unfold configureAP. intros Hrun.
  apply bind_Done in Hrun as (ok & w1 & _ & Hrest).
  destruct ok; [|discriminate]. revert Hrest. run_method.
  cbn -[strncpy].
  match goal with |- context [code ?r =? ESP_OK] => destruct (code r =? ESP_OK) end;
    [|discriminate].
  intros [= <-]. cbn -[strncpy uint8_t]. do 2 eexists. split; [reflexivity|].
  cbn -[strncpy Z.modulo Z.of_nat uint8_t]. unfold uint8_t.
  split; [reflexivity|]. split; [apply strncpy_length|]. split; [reflexivity|].
  split.
  { intros Hlen. pose proof (strncpy_length 31 ssid).
    rewrite Z.mod_small by lia. lia. }
  do 4 (split; [reflexivity|]).
  split; apply Z.mod_pos_bound; lia.
Qed.

Lemma configureAP_request_witness :
  ∃ w' c older,
    configureAP "a-network-name-of-thirty-six-letters" EmptyString 300 260 healthy
      fresh = Done (true, w')
    ∧ trace w' = esp_wifi_set_config WIFI_IF_AP (ap c) :: older
    ∧ ap_ssid c = "a-network-name-of-thirty-six-le"%string
    ∧ ap_ssid_len c = 36
    ∧ ap_authmode c = WIFI_AUTH_OPEN
    ∧ ap_channel c = 44
    ∧ ap_max_connection c = 4.
Proof.
  eexists.
  assert (configureAP "a-network-name-of-thirty-six-letters" EmptyString 300 260
            healthy fresh = Done (true, _)) as Hrun by (vm_compute; reflexivity).
  destruct (configureAP_request healthy fresh _ _ _ 300 260 Hrun)
    as (c & older & Htr & Hssid & _ & Hlen & _ & Hauth & _ & Hch & Hmax & _).
  exists c, older. split; [exact Hrun|]. split; [exact Htr|].
  split; [exact Hssid|]. split; [exact Hlen|]. split; [exact Hauth|].
  split; [exact Hch | exact Hmax].
Defined.

(** X7: what a successful [start] does once the manager is initialised.
    It sets the radio mode that corresponds to the configured roles, then
    (station role only) the station configuration with the stored
    credentials cut to 31 and 63 characters, then starts the radio, then
    (station role only) connects; the status becomes [CONNECTING] with a
    station role and is left alone without one, and nothing else in the
    settings changes. *)
Theorem start_applies_settings (env : Env Call) (w w' : World Call WiFiManager) :
  start env w = Done (true, w') →
  ∃ w1,
    initialized_or_init env w = Done (true, w1)
    ∧ trace w'
      = start_calls (_mode (self w)) (_stationSSID (self w)) (_stationPassword (self w))
        ++ trace w1
    ∧ _status (self w')
      = (if has_station (_mode (self w)) then CONNECTING else _status (self w))
    ∧ set_status DISCONNECTED (self w') = set_status DISCONNECTED (self w1).
Proof.
  unfold start. intros Hrun.
  apply bind_Done in Hrun as (ok & w1 & Hinit & Hrest).
  pose proof (initialized_or_init_keeps_settings _ env w ok w1 eq_refl Hinit) as Hset.
  injection Hset as Hm Hs Hss Hsp _ _.
  destruct ok; [|discriminate]. exists w1. split; [exact Hinit|].
  revert Hrest. run_method. cbn. rewrite Hm, Hss, Hsp.
  destruct (_mode (self w)); simpl; intros Hrest; branches Hrest;
    try discriminate Hrest; injection Hrest as <-; cbn -[strncpy]; rewrite ?Hs; auto.
Qed.

Lemma start_applies_settings_witness :
  run healthy [do_configureStation "net" "pw" EmptyString;
               do_configureAP "ap" "secret" 1 4] fresh = Some both_roles
  ∧ start healthy both_roles = Done (true, both_roles_started)
  ∧ ∃ w1,
      initialized_or_init healthy both_roles = Done (true, w1)
      ∧ trace both_roles_started = start_calls BOTH "net" "pw" ++ trace w1
      ∧ _status (self both_roles_started) = CONNECTING.
Proof.
  split; [vm_compute; reflexivity|].
  assert (start healthy both_roles = Done (true, both_roles_started)) as Hstart
    by (vm_compute; reflexivity).
  split; [exact Hstart|].
  destruct (start_applies_settings healthy both_roles both_roles_started Hstart)
    as (w1 & Hi & Htr & Hst & _).
  exists w1. split; [exact Hi|]. split; [exact Htr | exact Hst].
Defined.

(** *** The event group *)

Lemma init_stays_latched : stays fail_latched init.
Proof.
  intros env w r w' [Hi Hb] Hrun.
  apply init_reports in Hrun as [_ Hsame]. rewrite (Hsame Hi). split; assumption.
Qed.
#[local] Hint Resolve init_stays_latched : stays.

Lemma latched_modify (f : WiFiManager → WiFiManager) :
  (∀ m, _initialized (f m) = _initialized m) →
  ∀ w, fail_latched w → fail_latched (mkWorld (f (self w)) (trace w)).
Proof. intros Hf w [Hi Hb]. split; cbn; [rewrite Hf|]; assumption. Qed.

Ltac stays_hinted := repeat first [solve [auto with stays] | stays_step].

Lemma perform_stays_latched a : stays fail_latched (perform a).
Proof.
  destruct a; simpl;
    try match goal with |- context [wifiEventHandler ?e] => destruct e end;
    unfold configureStation, configureAP, start, stop, getStatus,
      getIPAddress, getAPIPAddress, setEventCallback, waitForConnection,
      scanNetworks, wifiEventHandler, notify, initialized_or_init;
    stays_hinted;
    try (apply latched_modify; intros []; reflexivity);
    intros w [Hi Hb]; (split; cbn [self trace event_bits]; [exact Hi|]);
    rewrite ?Z.lor_spec, ?Z.ldiff_spec, Hb; reflexivity.
Qed.

Lemma run_stays (I : World Call WiFiManager → Prop) env actions :
  (∀ a, In a actions → stays I (perform a)) →
  ∀ w w', I w → run env actions w = Some w' → I w'.
Proof.
  induction actions as [|a rest IH]; intros Hall w w' HI; simpl.
  - intros [= <-]. exact HI.
  - destruct (perform a env w) as [[[] w1]|h] eqn:Hstep; [|discriminate].
    apply IH; [intros b Hb; apply Hall; right; exact Hb|].
    exact (Hall a (or_introl eq_refl) env w tt w1 HI Hstep).
Qed.

(** X8: the manager sets the fail bit on a station-disconnect event and
    never clears it.  So after one such event on an initialised manager,
    whatever is called and whatever events follow, the fail bit is set;
    and when the SDK's wait returns at once on a bit that is set, every
    later [waitForConnection] of a manager with a station role returns
    without waiting, [true] exactly when the connected bit is set. *)
Theorem fail_bit_is_never_cleared (env : Env Call) (actions : list Action)
    (w0 w1 w : World Call WiFiManager) (portTICK_PERIOD_MS timeoutMs : Z) :
  _initialized (self w0) = true →
  wifiEventHandler WIFI_EVENT_STA_DISCONNECTED env w0 = Done (tt, w1) →
  run env actions w1 = Some w →
  Z.testbit (event_bits (trace w)) 1 = true
  ∧ (reports_bits env →
     has_station (_mode (self w)) = true →
     ∃ w',
       waitForConnection portTICK_PERIOD_MS timeoutMs env w
       = Done (negb (Z.land (event_bits (trace w)) WIFI_CONNECTED_BIT =? 0), w')).
Proof.
  intros Hinit Hev Hrun.
  assert (fail_latched w1) as H1.
  { revert Hev. unfold wifiEventHandler, notify. run_method. cbn.
    destruct (is_null (_eventCallback (self w0))); cbn; intros [= <-];
      (split; [exact Hinit|]); cbn [self trace event_bits];
      rewrite Z.lor_spec; apply orb_true_r. }
  assert (fail_latched w) as [_ Hbit].
  { refine (run_stays fail_latched env actions _ w1 w H1 Hrun).
    intros a _. apply perform_stays_latched. }
  split; [exact Hbit|]. intros Hrep Hsta.
  assert (Z.land (event_bits (trace w)) (Z.lor WIFI_CONNECTED_BIT WIFI_FAIL_BIT) ≠ 0)
    as Hset.
  { intros H0. apply (f_equal (λ z, Z.testbit z 1)) in H0.
    rewrite Z.land_spec, Hbit in H0. discriminate H0. }
  unfold waitForConnection. run_method.
  unfold has_station in Hsta.
  destruct (bool_decide (_mode (self w) = STATION)),
           (bool_decide (_mode (self w) = BOTH)); try discriminate Hsta; cbn;
    rewrite (Hrep _ _ _ _ Hset);
    destruct (Z.land (event_bits (trace w)) WIFI_CONNECTED_BIT =? 0); cbn;
    try destruct (negb (Z.land (event_bits (trace w)) WIFI_FAIL_BIT =? 0));
    eexists; reflexivity.
Qed.

Lemma with_event_group_reports : reports_bits with_event_group.
Proof.
  intros tr group waited ticks Hset. cbn.
  destruct (Z.eqb_spec (Z.land (event_bits tr) waited) 0); [contradiction|reflexivity].
Qed.

(** A disconnect followed by a reconnection: both bits are set, and the
    wait reports the connection at once. *)
Lemma fail_bit_is_never_cleared_witness :
  wifiEventHandler WIFI_EVENT_STA_DISCONNECTED with_event_group both_roles_started
    = Done (tt, disconnected_once)
  ∧ run with_event_group [on_event IP_EVENT_STA_GOT_IP] disconnected_once
    = Some reconnected
  ∧ event_bits (trace reconnected) = 3
  ∧ ∃ w', waitForConnection 10 30000 with_event_group reconnected = Done (true, w').
Proof.
  assert (wifiEventHandler WIFI_EVENT_STA_DISCONNECTED with_event_group
            both_roles_started = Done (tt, disconnected_once)) as Hev
    by (vm_compute; reflexivity).
  assert (run with_event_group [on_event IP_EVENT_STA_GOT_IP] disconnected_once
          = Some reconnected) as Hrun by (vm_compute; reflexivity).
  split; [exact Hev|]. split; [exact Hrun|]. split; [reflexivity|].
  destruct (fail_bit_is_never_cleared with_event_group
              [on_event IP_EVENT_STA_GOT_IP] both_roles_started disconnected_once
              reconnected 10 30000 eq_refl Hev Hrun) as [_ Hwait].
  exact (Hwait with_event_group_reports eq_refl).
Defined.

(** *** The observer *)

(** X9: the manager has one observer.  Registering a second one replaces
    the first: a got-IP event then sets the status to [CONNECTED], sets
    the connected bit and notifies the second observer only, once, with
    [CONNECTED] and its own user data; registering a null observer
    silences the notification. *)
Theorem setEventCallback_replaces (env : Env Call) (w : World Call WiFiManager)
    (first second : WiFiEventCallback) (data1 data2 : ptr) :
  ∃ w',
    run env [do_setEventCallback first data1; do_setEventCallback second data2;
             on_event IP_EVENT_STA_GOT_IP] w = Some w'
    ∧ trace w'
      = (if is_null second then [] else [eventCallback second CONNECTED data2])
        ++ xEventGroupSetBits (s_wifi_event_group (self w)) WIFI_CONNECTED_BIT
        :: trace w
    ∧ self w' = set_status CONNECTED (set_callback second data2 (self w)).
Proof.
  unfold run, perform, setEventCallback, wifiEventHandler, notify. run_method. cbn.
  destruct (is_null second); cbn; eexists; repeat split; reflexivity.
Qed.

(** *** Scanning *)



(** *** The address text *)

Lemma string_length_app (s1 s2 : string) :
  String.length (s1 ++ s2) = (String.length s1 + String.length s2)%nat.
Proof. induction s1 as [|c s1 IH]; simpl; [reflexivity|]. rewrite IH. reflexivity. Qed.

Lemma nul_free_app (s1 s2 : string) :
  nul_free (s1 ++ s2) = nul_free s1 && nul_free s2.
Proof.
  induction s1 as [|c s1 IH]; simpl; [reflexivity|].
  rewrite IH. apply andb_assoc.
Qed.

Lemma byte_text_ok (n : nat) :
  (n < 256)%nat →
  (1 ≤ String.length (byte_text n) ≤ 3)%nat ∧ nul_free (byte_text n) = true.
Proof.
  intros Hn.
  assert (forallb (λ k, (1 <=? String.length (byte_text k))%nat
                        && (String.length (byte_text k) <=? 3)%nat
                        && nul_free (byte_text k)) (seq 0 256) = true) as Hall
    by (vm_compute; reflexivity).
  rewrite forallb_forall in Hall. specialize (Hall n).
  rewrite in_seq in Hall. specialize (Hall ltac:(lia)).
  apply andb_true_iff in Hall as [Hall Hnul].
  apply andb_true_iff in Hall as [Hlo Hhi].
  apply Nat.leb_le in Hlo, Hhi. auto.
Qed.

Lemma octet_ok ip i :
  (1 ≤ String.length (octet ip i) ≤ 3)%nat ∧ nul_free (octet ip i) = true.
Proof.
  unfold octet.
  assert (0 ≤ (ip / 256 ^ i) mod 256 < 256) as Hb by (apply Z.mod_pos_bound; lia).
  replace (Z.to_N ((ip / 256 ^ i) mod 256))
    with (N.of_nat (Z.to_nat ((ip / 256 ^ i) mod 256))) by lia.
  apply byte_text_ok. lia.
Qed.

Lemma ip4_to_string_ok ip :
  (7 ≤ String.length (ip4_to_string ip) ≤ 15)%nat ∧ nul_free (ip4_to_string ip) = true.
Proof.
  unfold ip4_to_string.
  destruct (octet_ok ip 0) as [? N0], (octet_ok ip 1) as [? N1],
           (octet_ok ip 2) as [? N2], (octet_ok ip 3) as [? N3].
  rewrite !string_length_app, !nul_free_app, N0, N1, N2, N3. simpl. split; [lia|reflexivity].
Qed.

#[local] Transparent strncpy.

Lemma strncpy_whole n s :
  (String.length s ≤ n)%nat → nul_free s = true → strncpy n s = s.
Proof.
  revert s. induction n as [|n IH]; intros [|c s]; simpl; try reflexivity; try lia.
  intros Hlen Hnul. apply andb_true_iff in Hnul as [Hc Hnul].
  destruct (Ascii.eqb c Ascii.zero); [discriminate|]. rewrite IH by (auto; lia).
  reflexivity.
Qed.

#[local] Opaque strncpy.

(** X11: the address text always fits its buffers.  For every address
    the SDK reports, the text [getIPAddress] builds has 7 to 15
    characters, so it fits the 16-byte [ip_str]; [wifi_get_ip_address]
    with a buffer of at least 16 bytes returns 1 and leaves exactly that
    text, uncut, when the status is [CONNECTED], and returns 0 without
    copying otherwise. *)
Theorem wifi_get_ip_address_fits (env : Env Call) (w w' : World Call WiFiManager)
    (buffer_size result : Z) (buffer : option string) :
  16 ≤ buffer_size →
  wifi_get_ip_address buffer_size env w = Done ((result, buffer), w') →
  ∃ ip,
    getIPAddress env w = Done (ip, w')
    ∧ (String.length ip ≤ 15)%nat
    ∧ (result, buffer)
      = (if bool_decide (_status (self w) = CONNECTED) then (1, Some ip) else (0, None)).
Proof.
  intros Hsize. unfold wifi_get_ip_address, getIPAddress. run_method.
  destruct (bool_decide (_status (self w) = CONNECTED)); cbn.
  - destruct (written (env (esp_netif_get_ip_info (_staNetif (self w)) :: trace w)))
      as [ip|]; [|discriminate].
    destruct (ip4_to_string_ok ip) as [Hlen Hnul].
    destruct (ip4_to_string ip) as [|c s] eqn:Htext; [simpl in Hlen; lia|]. cbn.
    destruct (buffer_size <? 1) eqn:Hlt; [lia|].
    intros [= <- <- <-]. eexists. split; [reflexivity|]. split; [lia|].
    rewrite strncpy_whole by (auto; lia). reflexivity.
  - intros [= <- <- <-]. exists EmptyString. repeat split. simpl. lia.
Qed.

Lemma wifi_get_ip_address_fits_witness :
  ∃ w',
    wifi_get_ip_address 16 with_address connected
      = Done ((1, Some "192.168.4.1"%string), w')
    ∧ getIPAddress with_address connected = Done ("192.168.4.1"%string, w').
Proof.
  eexists.
  assert (wifi_get_ip_address 16 with_address connected
          = Done ((1, Some "192.168.4.1"%string), _)) as Hrun
    by (vm_compute; reflexivity).
  split; [exact Hrun|].
  destruct (wifi_get_ip_address_fits with_address connected _ 16 _ _
              ltac:(lia) Hrun) as (ip & Hip & _ & Heq).
  injection Heq as Hip'. subst ip. exact Hip.
Defined.

End WiFiMore.

(** ** MqttClient: configuration and its failures *)

Section MqttMoreFacts.
Import MQTT MqttMore.


(** A text without NUL is read whole. *)
Lemma c_string_whole (s : string) : WiFiC.nul_free s = true → c_string s = s.
Proof.
  induction s as [|c s IH]; simpl; [reflexivity|].
  destruct (Ascii.eqb c Ascii.zero); simpl; [discriminate|].
  intros Hfree. rewrite IH by exact Hfree. reflexivity.
Qed.

Lemma configure_effect env w uri clientId username password keepalive cleanSession :
  ∃ result w' req,
    configure uri clientId username password keepalive cleanSession env w
      = Done (result, w')
    ∧ getBrokerUri env w' = Done (uri, w')
    ∧ getClientId env w' = Done (clientId, w')
    ∧ MQTT.uri req = Some (c_string uri)
    ∧ client_id req = Some (c_string clientId)
    ∧ MQTT.username req = (if empty username then None else Some (c_string username))
    ∧ MQTT.password req = (if empty password then None else Some (c_string password))
    ∧ MQTT.keepalive req = keepalive
    ∧ result = negb (is_null (_client (self w')))
    ∧ _status (self w') = (if result then DISCONNECTED else ERROR)
    ∧ trace w'
      = (if result then [esp_mqtt_client_register_event (_client (self w'))] else [])
        ++ esp_mqtt_client_init req :: trace w.
Proof.
  unfold configure, getBrokerUri, getClientId. run_method. cbn.
  destruct (empty username), (empty password), (empty (_willTopic (self w))); cbn;
    match goal with |- context [is_null ?h] => destruct (is_null h) eqn:Hnull end;
    cbn; do 3 eexists; (split; [reflexivity|]); cbn; rewrite ?Hnull;
    repeat split; reflexivity.
Qed.


(** A client id with a NUL inside is sent up to that NUL, though it is
    stored whole; a user name that is only a NUL is not empty, and is
    sent as the empty text, not as absent. *)
Lemma configure_cuts_at_nul :
  ∃ w' req,
    configure "ws://broker/mqtt" client_id_with_nul (String Ascii.zero EmptyString)
              EmptyString 60 true healthy fresh = Done (true, w')
    ∧ established (trace w') = Some req
    ∧ _clientId (self w') = client_id_with_nul
    ∧ client_id req = Some "ESP32"%string
    ∧ MQTT.username req = Some EmptyString
    ∧ MQTT.password req = None.
Proof. do 2 eexists. vm_compute. repeat split; reflexivity. Qed.

(** X13: a [configure] that fails after one that succeeded throws the
    working client away.  The handle is overwritten with null and the
    status becomes [ERROR]; the old client is neither stopped nor told
    anything (the only call made is the failed creation); and from then
    on [connect] and [disconnect] return [false] and [publish],
    [subscribe] and [unsubscribe] return -1 without reaching the SDK. *)
Theorem failed_reconfigure_drops_client (env : Env Call)
    (w w1 w2 : World Call MqttClient)
    (uri clientId username password : string) (keepalive : Z) (cleanSession : bool)
    (uri' clientId' username' password' : string) (keepalive' : Z)
    (cleanSession' : bool) :
  configure uri clientId username password keepalive cleanSession env w
    = Done (true, w1) →
  configure uri' clientId' username' password' keepalive' cleanSession' env w1
    = Done (false, w2) →
  _client (self w1) ≠ nullptr
  ∧ _client (self w2) = nullptr
  ∧ _status (self w2) = ERROR
  ∧ (∃ req, trace w2 = esp_mqtt_client_init req :: trace w1)
  ∧ connect env w2 = Done (false, w2)
  ∧ disconnect env w2 = Done (false, w2)
  ∧ (∀ topic payload qos retain, publish topic payload qos retain env w2 = Done (-1, w2))
  ∧ (∀ topic qos, subscribe topic qos env w2 = Done (-1, w2))
  ∧ (∀ topic, unsubscribe topic env w2 = Done (-1, w2)).
Proof.
  intros H1 H2.
  destruct (configure_effect env w uri clientId username password
              keepalive cleanSession)
    as (r1 & w1' & req1 & Hrun1 & _ & _ & _ & _ & _ & _ & _ & Hr1 & _).
  rewrite H1 in Hrun1. injection Hrun1 as <- <-.
  destruct (configure_effect env w1 uri' clientId' username' password'
              keepalive' cleanSession')
    as (r2 & w2' & req2 & Hrun2 & _ & _ & _ & _ & _ & _ & _ & Hr2 & Hst & Htr).
  rewrite H2 in Hrun2. injection Hrun2 as <- <-.
  assert (_client (self w2) = nullptr) as Hnull.
  { unfold is_null in Hr2. destruct (Z.eqb_spec (_client (self w2)) 0);
      [assumption|discriminate]. }
  split.
  { intros Heq. rewrite Heq in Hr1. discriminate Hr1. }
  split; [exact Hnull|]. split; [exact Hst|]. split; [exists req2; exact Htr|].
  destruct (calls_without_client env w2 Hnull) as (Hpub & _ & Hsub & Hunsub).
  unfold connect, disconnect. run_method. rewrite Hnull. cbn. auto.
Qed.

Lemma failed_reconfigure_drops_client_witness :
  ∃ w2,
    configure "ws://broker/mqtt" "ESP32_Client" "user" "pass" 60 true
      one_client_only fresh = Done (true, configured_once)
    ∧ configure "ws://broker/mqtt" "ESP32_Client" "user" "pass" 60 true
        one_client_only configured_once = Done (false, w2)
    ∧ _client (self configured_once) ≠ nullptr
    ∧ _client (self w2) = nullptr
    ∧ _status (self w2) = ERROR
    ∧ publish "test/topic" "1" 1 true one_client_only w2 = Done (-1, w2).
Proof.
  eexists.
  assert (configure "ws://broker/mqtt" "ESP32_Client" "user" "pass" 60 true
            one_client_only fresh = Done (true, configured_once)) as H1
    by (vm_compute; reflexivity).
  assert (configure "ws://broker/mqtt" "ESP32_Client" "user" "pass" 60 true
            one_client_only configured_once = Done (false, _)) as H2
    by (vm_compute; reflexivity).
  destruct (failed_reconfigure_drops_client one_client_only _ _ _ _ _ _ _ _ _
              _ _ _ _ _ _ H1 H2) as (Hc1 & Hc2 & Hst & _ & _ & _ & Hpub & _).
  split; [exact H1|]. split; [exact H2|]. split; [exact Hc1|].
  split; [exact Hc2|]. split; [exact Hst | apply Hpub].
Defined.

(** X14: before any successful [configure], [connect] and [disconnect]
    return [false] and leave the manager and the SDK alone, like the
    four message calls. *)
Theorem connect_before_configure_fails (env : Env Call) (actions : list Action)
    (done : list (Action * Z)) (w : World Call MqttClient) :
  run env actions [] fresh = Some (done, w) →
  existsb configured done = false →
  connect env w = Done (false, w) ∧ disconnect env w = Done (false, w).
Proof.
  intros Hrun Hnone.
  assert (unconfigured (self w)) as Hnull.
  { eapply run_keeps_unconfigured; [|exact Hrun|exact Hnone]. reflexivity. }
  unfold connect, disconnect. run_method. rewrite Hnull. split; reflexivity.
Qed.

Lemma connect_before_configure_fails_witness :
  ∃ done w,
    run out_of_memory
        [do_configure "ws://broker/mqtt" "ESP32_Client" "user" "pass" 60 true;
         do_setWill "lwt/topic" "Device disconnected" 1 true] [] fresh
      = Some (done, w)
    ∧ connect out_of_memory w = Done (false, w)
    ∧ disconnect out_of_memory w = Done (false, w).
Proof.
  do 2 eexists. split; [vm_compute; reflexivity|].
  apply (connect_before_configure_fails out_of_memory
           [do_configure "ws://broker/mqtt" "ESP32_Client" "user" "pass" 60 true;
            do_setWill "lwt/topic" "Device disconnected" 1 true] _ _ eq_refl eq_refl).
Defined.

(** *** Who assigns what *)








(** Only an event makes the status [CONNECTED]. *)
Lemma perform_keeps_mqtt_not_connected a :
  is_event a = false → keeps not_connected (perform a).
Proof.
  intros Hev. destruct a; try discriminate Hev; simpl;
    unfold init, configure, setWill, connect, disconnect, publish, publish_binary,
      subscribe, unsubscribe, setEventCallback, getStatus, getBrokerUri,
      getClientId;
    keeps_auto;
    try (intros [] H; first [exact H | unfold not_connected; simpl; discriminate]).
Qed.

Lemma mqtt_run_keeps (P : MqttClient → Prop) env actions :
  (∀ a, In a actions → keeps P (perform a)) →
  ∀ done w done' w', P (self w) → run env actions done w = Some (done', w') → P (self w').
Proof.
  induction actions as [|a rest IH]; intros Hall done w done' w' HP; simpl.
  - intros [= _ <-]. exact HP.
  - destruct (perform a env w) as [[r w1]|h] eqn:Hstep; [|discriminate].
    apply IH; [intros b Hb; apply Hall; right; exact Hb|].
    exact (Hall a (or_introl eq_refl) env w r w1 HP Hstep).
Qed.

(** X16: the status [CONNECTED] comes from the broker layer only.
    Whatever the public methods are called with and whatever the SDK
    answers, as long as no event has been handled the status is
    [DISCONNECTED], [CONNECTING] or [ERROR]: a [connect] that returns
    [true] only makes it [CONNECTING]. *)
Theorem mqtt_no_connection_without_events (env : Env Call) (actions : list Action)
    (done : list (Action * Z)) (w : World Call MqttClient) :
  run env actions [] fresh = Some (done, w) →
  existsb is_event actions = false →
  _status (self w) = DISCONNECTED ∨ _status (self w) = CONNECTING
  ∨ _status (self w) = ERROR.
Proof.
  intros Hrun Hnone.
  assert (not_connected (self w)) as Hst.
  { refine (mqtt_run_keeps not_connected env actions _ [] fresh done w _ Hrun);
      [|discriminate].
    intros a Ha. apply perform_keeps_mqtt_not_connected.
    rewrite <- not_true_iff_false, existsb_exists in Hnone.
    destruct (is_event a) eqn:E; [|reflexivity]. exfalso. eauto. }
  unfold not_connected in Hst. destruct (_status (self w)); tauto.
Qed.

Lemma mqtt_no_connection_without_events_witness :
  ∃ done w,
    run healthy [do_configure "ws://broker/mqtt" "ESP32_Client" "user" "pass" 60 true;
                 do_connect; do_publish "test/topic" "1" 1 true] [] fresh
      = Some (done, w)
    ∧ _status (self w) = CONNECTING.
Proof.
  do 2 eexists. split; [vm_compute; reflexivity|].
  destruct (mqtt_no_connection_without_events healthy
              [do_configure "ws://broker/mqtt" "ESP32_Client" "user" "pass" 60 true;
               do_connect; do_publish "test/topic" "1" 1 true] _ _ eq_refl eq_refl)
    as [H | [H | H]]; [discriminate H | exact H | discriminate H].
Defined.

End MqttMoreFacts.

(** ** The application and its last will *)

Section AppFacts.
Import MQTT App.




End AppFacts.

(** ** GpioManager: registrations and levels *)

Section GpioMoreFacts.
Import GPIO GpioMore.

Lemma prepared_armed env w : armed (trace (prepared env w)) = armed (trace w).
Proof.
  unfold prepared, init. run_method.
  destruct (_initialized (self w)) eqn:Hinit; [reflexivity|]. rewrite ?Hinit. cbn.
  match goal with |- context [code ?r =? ESP_OK] => destruct (code r =? ESP_OK) end;
    reflexivity.
Qed.

(** What a [configurePin] that returns has done, for a pin of the table:
    it succeeds exactly when the SDK accepts the configuration request,
    and it stores the callback and hands the trampoline to the SDK
    exactly when it succeeds with a real trigger and a callback. *)
Lemma configurePin_effect env w pin mode pu pd intr callback od drive r w' :
  in_table pin = true →
  configurePin pin mode pu pd intr callback od drive env w = Done (r, w') →
  r = (code (env (gpio_config (request pin mode pu pd intr od)
                  :: trace (prepared env w))) =? ESP_OK)
  ∧ _configs (self w')
    = (if r && registers intr callback
       then <[Z.to_nat pin := mkPinConfig callback]> (_configs (self w))
       else _configs (self w))
  ∧ armed (trace w')
    = (if r && registers intr callback then [pin] else []) ++ armed (trace w).
Proof.
  intros Hpin.
  assert ((0 <=? pin) && (pin <? 64) = true) as Hshift.
  { unfold in_table, GPIO_NUM_MAX in Hpin. lia. }
  rewrite configurePin_prefix by exact Hshift. run_method. cbn.
  fold (registers intr callback). rewrite Hpin.
  match goal with |- context [code ?r =? ESP_OK] => destruct (code r =? ESP_OK) end; cbn.
  - destruct (registers intr callback); cbn; intros [= <- <-]; cbn;
      rewrite prepared_configs, prepared_armed; auto.
  - intros [= <- <-]. cbn. rewrite prepared_configs, prepared_armed. auto.
Qed.

Lemma perform_keeps_table a : keeps table_ok (perform a).
Proof.
  destruct a; simpl; unfold init, configurePin, setLevel, getLevel, toggle,
    resetPin, setDriveStrength, isrHandler, getLevel, setLevel;
    keeps_auto; try (intros [] H; exact H).
  all: try (destruct (_configs _ !! _) as [[[?|]]|]; keeps_auto).
  all: intros [t i] H; unfold table_ok, set_cb in *; cbn in *;
    rewrite length_insert; exact H.
Qed.

Lemma gpio_run_keeps (P : GpioManager → Prop) env actions :
  (∀ a, In a actions → keeps P (perform a)) →
  ∀ w w', P (self w) → run env actions w = Some w' → P (self w').
Proof.
  induction actions as [|a rest IH]; intros Hall w w' HP; simpl.
  - intros [= <-]. exact HP.
  - destruct (perform a env w) as [[[] w1]|h] eqn:Hstep; [|discriminate].
    apply IH; [intros b Hb; apply Hall; right; exact Hb|].
    exact (Hall a (or_introl eq_refl) env w tt w1 HP Hstep).
Qed.

Lemma reachable_table env actions w :
  run env actions fresh = Some w → table_ok (self w).
Proof.
  refine (gpio_run_keeps table_ok env actions _ fresh w _);
    [intros a _; apply perform_keeps_table | reflexivity].
Qed.

(** The trampoline on a pin with a callback reads the level and invokes
    that callback once, with the pin and the level read. *)
Lemma isrHandler_with_callback env w pin f :
  in_table pin = true →
  registered (self w) pin = Some (Some f) →
  isrHandler pin env w
  = Done (tt, mkWorld (self w)
                (callback f pin (code (env (gpio_get_level pin :: trace w)))
                 :: gpio_get_level pin :: trace w)).
Proof.
  intros Hpin Hcb. unfold isrHandler, registered in *. run_method. rewrite Hpin. cbn.
  destruct (_configs (self w) !! Z.to_nat pin) as [[[g|]]|]; try discriminate.
  injection Hcb as ->. reflexivity.
Qed.

(** X18: registering a callback and getting it called.  In any state
    the manager can reach, a [configurePin] that succeeds for a pin of the
    table with a real trigger and a callback stores that callback for
    that pin, replacing whatever was stored there, leaves every other
    entry alone and hands the trampoline for the pin to the SDK once; an
    interrupt dispatched for the pin then invokes this callback, and no
    other, once, with the pin number and the level read at dispatch. *)
Theorem configurePin_registers_callback (env : Env Call) (actions : list Action)
    (w w' : World Call GpioManager) (pin : Z) (mode : PinMode)
    (pull_up pull_down : bool) (intr : InterruptTrigger) (f : Z)
    (open_drain : bool) (drive : DriveStrength) :
  run env actions fresh = Some w →
  in_table pin = true →
  intr ≠ NONE →
  configurePin pin mode pull_up pull_down intr (Some f) open_drain drive env w
    = Done (true, w') →
  registered (self w') pin = Some (Some f)
  ∧ (∀ other, Z.to_nat other ≠ Z.to_nat pin →
       registered (self w') other = registered (self w) other)
  ∧ armed (trace w') = pin :: armed (trace w)
  ∧ isrHandler pin env w'
    = Done (tt, mkWorld (self w')
                  (callback f pin (code (env (gpio_get_level pin :: trace w')))
                   :: gpio_get_level pin :: trace w')).
Proof.
  intros Hrun Hpin Hintr Hconf.
  apply reachable_table in Hrun. unfold table_ok in Hrun.
  destruct (configurePin_effect env w pin mode pull_up pull_down intr (Some f)
              open_drain drive true w' Hpin Hconf) as (_ & Htable & Harmed).
  assert (registers intr (Some f) = true) as Hreg.
  { unfold registers. rewrite bool_decide_eq_false_2 by exact Hintr.
    rewrite bool_decide_eq_true_2 by eauto. reflexivity. }
  rewrite Hreg in Htable, Harmed. cbn in Htable, Harmed.
  assert (registered (self w') pin = Some (Some f)) as Hnow.
  { unfold registered. rewrite Htable, list_lookup_insert_eq; [reflexivity|].
    unfold in_table, GPIO_NUM_MAX in *. lia. }
  split; [exact Hnow|]. split.
  { intros other Hne. unfold registered. rewrite Htable.
    rewrite list_lookup_insert_ne by congruence. reflexivity. }
  split; [exact Harmed|].
  apply isrHandler_with_callback; assumption.
Qed.

(** A second callback for pin 4 takes the place of the first. *)
Lemma configurePin_registers_callback_witness :
  ∃ w',
    run healthy [do_configurePin 4 INPUT true false RISING (Some 7) false DEFAULT] fresh
      = Some pin4_watched
    ∧ configurePin 4 INPUT true false FALLING (Some 8) false DEFAULT healthy pin4_watched
      = Done (true, w')
    ∧ registered (self pin4_watched) 4 = Some (Some 7)
    ∧ registered (self w') 4 = Some (Some 8)
    ∧ isrHandler 4 healthy w'
      = Done (tt, mkWorld (self w') (callback 8 4 0 :: gpio_get_level 4 :: trace w')).
Proof.
  eexists.
  assert (run healthy [do_configurePin 4 INPUT true false RISING (Some 7) false DEFAULT]
            fresh = Some pin4_watched) as Hrun by (vm_compute; reflexivity).
  assert (configurePin 4 INPUT true false FALLING (Some 8) false DEFAULT healthy
            pin4_watched = Done (true, _)) as Hconf by (vm_compute; reflexivity).
  destruct (configurePin_registers_callback healthy _ pin4_watched _ 4 INPUT true false
              FALLING 8 false DEFAULT Hrun eq_refl ltac:(discriminate) Hconf)
    as (Hreg & _ & _ & Hisr).
  split; [exact Hrun|]. split; [exact Hconf|]. split; [reflexivity|].
  split; [exact Hreg | exact Hisr].
Defined.

(** X19: without both a real trigger and a callback nothing is
    registered.  For a pin of the table, a [configurePin] that returns,
    given trigger [NONE] (with or without a callback) or given no
    callback (whatever the trigger), leaves the callback table as it was
    and does not hand the trampoline to the SDK: a callback supplied with
    trigger [NONE] is dropped silently, and the request still succeeds
    when the SDK accepts the pin configuration. *)
Theorem configurePin_needs_trigger_and_callback (env : Env Call)
    (w w' : World Call GpioManager) (pin : Z) (mode : PinMode)
    (pull_up pull_down : bool) (intr : InterruptTrigger) (callback : GpioCallback)
    (open_drain : bool) (drive : DriveStrength) (result : bool) :
  in_table pin = true →
  intr = NONE ∨ callback = None →
  configurePin pin mode pull_up pull_down intr callback open_drain drive env w
    = Done (result, w') →
  _configs (self w') = _configs (self w)
  ∧ armed (trace w') = armed (trace w)
  ∧ result = (code (env (gpio_config (request pin mode pull_up pull_down intr open_drain)
                         :: trace (prepared env w))) =? ESP_OK).
Proof.
  intros Hpin Hno Hconf.
  destruct (configurePin_effect env w pin mode pull_up pull_down intr callback
              open_drain drive result w' Hpin Hconf) as (Hres & Htable & Harmed).
  assert (registers intr callback = false) as Hreg.
  { unfold registers. destruct Hno as [-> | ->]; [reflexivity|].
    rewrite andb_false_iff. right. apply bool_decide_eq_false_2. intros [? [=]]. }
  rewrite Hreg, andb_false_r in Htable, Harmed. auto.
Qed.

(** A callback given with trigger [NONE] on a new manager is not stored. *)
Lemma configurePin_needs_trigger_and_callback_witness :
  ∃ w',
    configurePin 4 INPUT true false NONE (Some 7) false DEFAULT healthy fresh
      = Done (true, w')
    ∧ _configs (self w') = _configs (self fresh)
    ∧ armed (trace w') = [].
Proof.
  eexists.
  assert (configurePin 4 INPUT true false NONE (Some 7) false DEFAULT healthy fresh
          = Done (true, _)) as Hconf by (vm_compute; reflexivity).
  destruct (configurePin_needs_trigger_and_callback healthy fresh _ 4 INPUT true false
              NONE (Some 7) false DEFAULT true eq_refl (or_introl eq_refl) Hconf)
    as (Htable & Harmed & _).
  split; [exact Hconf|]. split; [exact Htable | exact Harmed].
Defined.

Lemma perform_keeps_configs v a :
  is_configurePin a = false → keeps (λ m, _configs m = v) (perform a).
Proof.
  intros Hw. destruct a; try discriminate Hw; simpl;
    unfold init, setLevel, getLevel, toggle, resetPin, setDriveStrength,
      isrHandler, getLevel, setLevel;
    keeps_auto; try (intros [] H; exact H).
  all: destruct (_configs _ !! _) as [[[?|]]|]; keeps_auto.
Qed.

(** X20: only [configurePin] writes the callback table, and nothing ever
    clears an entry.  Every other operation ([init], [setLevel],
    [getLevel], [toggle], [resetPin], [setDriveStrength], the interrupt
    trampoline) leaves the table as it was.  In particular [resetPin]
    does not forget the callback of the pin it resets: an interrupt
    dispatched for that pin afterwards still invokes it. *)
Theorem only_configurePin_writes_table (env : Env Call) (a : Action)
    (w w' : World Call GpioManager) (pin f : Z) :
  is_configurePin a = false →
  perform a env w = Done (tt, w') →
  _configs (self w') = _configs (self w)
  ∧ (in_table pin = true →
     registered (self w) pin = Some (Some f) →
     ∃ w1,
       resetPin pin env w = Done (tt, w1)
       ∧ isrHandler pin env w1
         = Done (tt, mkWorld (self w)
                       (callback f pin
                          (code (env (gpio_get_level pin :: gpio_reset_pin pin :: trace w)))
                        :: gpio_get_level pin :: gpio_reset_pin pin :: trace w))).
Proof.
  intros Hw Hrun. split.
  - exact (perform_keeps_configs _ a Hw env w tt w' eq_refl Hrun).
  - intros Hpin Hreg. eexists. split; [reflexivity|].
    exact (isrHandler_with_callback env
             (mkWorld (self w) (gpio_reset_pin pin :: trace w)) pin f Hpin Hreg).
Qed.

Lemma only_configurePin_writes_table_witness :
  ∃ w' w1,
    perform (do_resetPin 4) healthy pin4_watched = Done (tt, w')
    ∧ _configs (self w') = _configs (self pin4_watched)
    ∧ resetPin 4 healthy pin4_watched = Done (tt, w1)
    ∧ isrHandler 4 healthy w1
      = Done (tt, mkWorld (self pin4_watched)
                    (callback 7 4 0 :: gpio_get_level 4 :: gpio_reset_pin 4
                     :: trace pin4_watched)).
Proof.
  eexists.
  assert (perform (do_resetPin 4) healthy pin4_watched = Done (tt, _)) as Hrun
    by (vm_compute; reflexivity).
  destruct (only_configurePin_writes_table healthy (do_resetPin 4) pin4_watched _ 4 7
              eq_refl Hrun) as (Hsame & Hstale).
  destruct (Hstale eq_refl eq_refl) as (w1 & Hreset & Hisr).
  exists w1. split; [exact Hrun|]. split; [exact Hsame|].
  split; [exact Hreset | exact Hisr].
Defined.

(** X21: two toggles bring the level back.  If the pin always shows what
    was last written to it and [before] is the level read at the moment
    of the call, then after [toggle] twice [getLevel] returns [before] as
    a logic level (0 for 0, 1 for anything else), and the SDK saw two
    reads and two writes, the manager itself being untouched. *)
Theorem toggle_twice_restores (env : Env Call) (w w0 : World Call GpioManager)
    (pin before : Z) :
  always_reads_back env pin →
  getLevel pin env w = Done (before, w0) →
  ∃ w1 w2 w3,
    toggle pin env w = Done (tt, w1)
    ∧ toggle pin env w1 = Done (tt, w2)
    ∧ getLevel pin env w2 = Done (if before =? 0 then 0 else 1, w3)
    ∧ self w2 = self w
    ∧ trace w2
      = [gpio_set_level pin (lnot (lnot before)); gpio_get_level pin;
         gpio_set_level pin (lnot before); gpio_get_level pin] ++ trace w.
Proof.
  intros Hback. unfold getLevel, toggle, setLevel, getLevel. run_method.
  intros [= <- <-].
  set (before := code (env (gpio_get_level pin :: trace w))).
  assert (code (env (gpio_get_level pin :: gpio_set_level pin (lnot before)
                     :: gpio_get_level pin :: trace w)) = lnot before) as H1.
  { rewrite (Hback _ (lnot before)). unfold lnot. destruct (before =? 0); reflexivity. }
  assert (code (env (gpio_get_level pin :: gpio_set_level pin (lnot (lnot before))
                     :: gpio_get_level pin :: gpio_set_level pin (lnot before)
                     :: gpio_get_level pin :: trace w))
          = if before =? 0 then 0 else 1) as H2.
  { rewrite (Hback _ (lnot (lnot before))). unfold lnot.
    destruct (before =? 0); reflexivity. }
  exists (mkWorld (self w)
            (gpio_set_level pin (lnot before) :: gpio_get_level pin :: trace w)),
         (mkWorld (self w)
            (gpio_set_level pin (lnot (lnot before)) :: gpio_get_level pin
             :: gpio_set_level pin (lnot before) :: gpio_get_level pin :: trace w)),
         (mkWorld (self w)
            (gpio_get_level pin
             :: gpio_set_level pin (lnot (lnot before)) :: gpio_get_level pin
             :: gpio_set_level pin (lnot before) :: gpio_get_level pin :: trace w)).
  cbn [self trace]. fold before. rewrite H1, H2. repeat split.
Qed.

Lemma always_healthy_reads_back pin : always_reads_back healthy pin.
Proof. intros tr level. cbn. rewrite Z.eqb_refl. reflexivity. Qed.

Lemma toggle_twice_restores_witness :
  ∃ w0 w1 w2 w3,
    getLevel 4 healthy pin4_high = Done (1, w0)
    ∧ toggle 4 healthy pin4_high = Done (tt, w1)
    ∧ toggle 4 healthy w1 = Done (tt, w2)
    ∧ getLevel 4 healthy w2 = Done (1, w3).
Proof.
  pose (w0 := mkWorld (self pin4_high) (gpio_get_level 4 :: trace pin4_high)).
  assert (getLevel 4 healthy pin4_high = Done (1, w0)) as Hget by reflexivity.
  destruct (toggle_twice_restores healthy pin4_high w0 4 1
              (always_healthy_reads_back 4) Hget)
    as (w1 & w2 & w3 & H1 & H2 & H3 & _).
  exists w0, w1, w2, w3. auto.
Defined.

(** X22: [configurePin] does not look at the result of [init].  On an
    uninitialised manager whose interrupt service cannot be installed, a
    request that the SDK accepts, for a pin of the table with a real
    trigger and a callback, still returns [true], stores the callback and
    hands the trampoline to the SDK, while the manager stays
    uninitialised. *)
Theorem configurePin_ignores_failed_init (env : Env Call) (w : World Call GpioManager)
    (pin : Z) (mode : PinMode) (pull_up pull_down : bool) (intr : InterruptTrigger)
    (f : Z) (open_drain : bool) (drive : DriveStrength) :
  _initialized (self w) = false →
  code (env (gpio_install_isr_service 0 :: trace w)) ≠ ESP_OK →
  code (env (gpio_config (request pin mode pull_up pull_down intr open_drain)
             :: gpio_install_isr_service 0 :: trace w)) = ESP_OK →
  in_table pin = true →
  intr ≠ NONE →
  ∃ w',
    configurePin pin mode pull_up pull_down intr (Some f) open_drain drive env w
      = Done (true, w')
    ∧ _initialized (self w') = false
    ∧ _configs (self w') = <[Z.to_nat pin := mkPinConfig (Some f)]> (_configs (self w))
    ∧ trace w'
      = [gpio_isr_handler_add pin pin; gpio_set_drive_capability pin drive;
         gpio_config (request pin mode pull_up pull_down intr open_drain);
         gpio_install_isr_service 0] ++ trace w.
Proof.
  intros Hinit Hfail Hok Hpin Hintr.
  assert ((0 <=? pin) && (pin <? 64) = true) as Hshift.
  { unfold in_table, GPIO_NUM_MAX in Hpin. lia. }
  apply Z.eqb_neq in Hfail. apply Z.eqb_eq in Hok.
  pose proof (bool_decide_eq_false_2 _ Hintr) as Hd1.
  assert (bool_decide (is_Some (Some f)) = true) as Hd2
    by (apply bool_decide_eq_true_2; eauto).
  unfold configurePin, init. run_method.
  repeat (first [rewrite Hinit | rewrite Hfail | rewrite Hshift | rewrite Hok
                | rewrite Hpin | rewrite Hd1 | rewrite Hd2];
          cbn -[Z.eqb Z.leb Z.ltb]).
  eexists. split; [reflexivity|]. cbn. rewrite Hinit. repeat split.
Qed.

Lemma configurePin_ignores_failed_init_witness :
  ∃ w',
    configurePin 4 INPUT true false RISING (Some 7) false DEFAULT no_isr_service fresh
      = Done (true, w')
    ∧ _initialized (self w') = false
    ∧ registered (self w') 4 = Some (Some 7)
    ∧ armed (trace w') = [4].
Proof.
  destruct (configurePin_ignores_failed_init no_isr_service fresh 4 INPUT true false
              RISING 7 false DEFAULT eq_refl ltac:(vm_compute; discriminate) eq_refl
              eq_refl ltac:(discriminate)) as (w' & Hrun & Hinit & Htable & Htrace).
  exists w'. split; [exact Hrun|]. split; [exact Hinit|].
  unfold registered. rewrite Htable, Htrace. split; reflexivity.
Defined.

End GpioMoreFacts.

(** ** ADCManager: configuration, errors, observer *)

Section AdcMoreFacts.
Import ADC AdcMore.

(** [configOneShot] always returns; its result and what it leaves in the
    manager, in terms of the SDK's three answers. *)
Lemma configOneShot_effect env w unit channel bitwidth atten :
  let r1 := unit_reply env w unit in
  let r2 := channel_reply env w unit channel bitwidth atten in
  let r3 := calibration_reply env w unit channel bitwidth atten in
  ∃ w',
    configOneShot unit channel bitwidth atten env w
    = Done (if negb (code r1 =? ESP_OK) then code r1
            else if negb (code r2 =? ESP_OK) then code r2 else ESP_OK, w')
    ∧ one_shot_unit_handle (self w') = unit_handle env w unit
    ∧ cali_handle (self w')
      = (if (code r1 =? ESP_OK) && (code r2 =? ESP_OK)
         then if code r3 =? ESP_OK then default (cali_handle (self w)) (written r3)
              else nullptr
         else cali_handle (self w)).
Proof.
  cbv zeta. unfold calibration_reply, channel_reply, unit_handle, unit_reply.
  unfold configOneShot. run_method. cbn -[Z.eqb].
  destruct (code (env (adc_oneshot_new_unit unit :: trace w)) =? ESP_OK);
    cbn -[Z.eqb]; [|eexists; repeat split; reflexivity].
  match goal with |- context [negb (code ?r =? ESP_OK)] =>
    destruct (code r =? ESP_OK) end;
    cbn -[Z.eqb]; [|eexists; repeat split; reflexivity].
  match goal with |- context [negb (code ?r =? ESP_OK)] =>
    destruct (code r =? ESP_OK) end;
    cbn -[Z.eqb]; eexists; repeat split; reflexivity.
Qed.

(** X23: [configOneShot] reports the unit and the channel, never the
    calibration.  It returns [ESP_OK] exactly when the SDK created the
    unit and accepted the channel; when the calibration scheme then
    cannot be created the result is still [ESP_OK], the calibration
    handle is null, and every successful raw read is what
    [readOneShotVoltage] returns. *)
Theorem configOneShot_tolerates_missing_calibration (env : Env Call)
    (w w' : World Call ADCManager) (unit : adc_unit_t) (channel : adc_channel_t)
    (bitwidth : adc_bitwidth_t) (atten : adc_atten_t) (result : esp_err_t) :
  configOneShot unit channel bitwidth atten env w = Done (result, w') →
  (result = ESP_OK ↔
     code (unit_reply env w unit) = ESP_OK
     ∧ code (channel_reply env w unit channel bitwidth atten) = ESP_OK)
  ∧ (result = ESP_OK →
     code (calibration_reply env w unit channel bitwidth atten) ≠ ESP_OK →
     cali_handle (self w') = nullptr
     ∧ ∀ unit' channel' raw w'',
         readOneShot unit' channel' env w' = Done ((ESP_OK, Some raw), w'') →
         readOneShotVoltage unit' channel' env w' = Done ((ESP_OK, Some raw), w'')).
Proof.
  intros Hrun.
  destruct (configOneShot_effect env w unit channel bitwidth atten)
    as (w1 & Hrun1 & _ & Hcali).
  rewrite Hrun in Hrun1. injection Hrun1 as Hres <-.
  destruct (Z.eqb_spec (code (unit_reply env w unit)) ESP_OK) as [E1|E1];
    destruct (Z.eqb_spec (code (channel_reply env w unit channel bitwidth atten)) ESP_OK)
      as [E2|E2]; cbn in Hres, Hcali; subst result.
  - split; [tauto|]. intros _ Hc3. apply Z.eqb_neq in Hc3. rewrite Hc3 in Hcali.
    split; [exact Hcali|]. intros unit' channel' raw w'' Hread.
    destruct (readOneShotVoltage_uncalibrated env w' unit' channel' Hcali)
      as (ret & stored & w2 & Hread' & Hvolt).
    rewrite Hread in Hread'. injection Hread' as <- <- <-. exact Hvolt.
  - split; [tauto|]. intros H. contradiction.
  - split; [tauto|]. intros H. contradiction.
  - split; [tauto|]. intros H. contradiction.
Qed.

Lemma configOneShot_tolerates_missing_calibration_witness :
  configOneShot 1 6 12 3 uncalibrated fresh = Done (ESP_OK, one_shot_uncalibrated)
  ∧ cali_handle (self one_shot_uncalibrated) = nullptr
  ∧ ∃ w'', readOneShotVoltage 1 6 uncalibrated one_shot_uncalibrated
           = Done ((ESP_OK, Some 2048), w'').
Proof.
  assert (configOneShot 1 6 12 3 uncalibrated fresh
          = Done (ESP_OK, one_shot_uncalibrated)) as Hrun by (vm_compute; reflexivity).
  split; [exact Hrun|].
  destruct (configOneShot_tolerates_missing_calibration uncalibrated fresh
              one_shot_uncalibrated 1 6 12 3 ESP_OK Hrun) as [_ Hcal].
  destruct (Hcal eq_refl ltac:(vm_compute; discriminate)) as [Hnull Hpass].
  split; [exact Hnull|]. eexists. apply Hpass. reflexivity.
Defined.

(** X24: operations on what was never configured fail with
    [ESP_ERR_INVALID_STATE] and do nothing: without a one-shot unit
    [readOneShot] and [readOneShotVoltage] store nothing, without a
    continuous handle [startContinuous] and [stopContinuous] leave the
    running flag alone, and none of them reaches the SDK. *)
Theorem unconfigured_adc_is_invalid_state (env : Env Call) (w : World Call ADCManager)
    (unit : adc_unit_t) (channel : adc_channel_t) :
  (one_shot_unit_handle (self w) = nullptr →
   readOneShot unit channel env w = Done ((ESP_ERR_INVALID_STATE, None), w)
   ∧ readOneShotVoltage unit channel env w = Done ((ESP_ERR_INVALID_STATE, None), w))
  ∧ (continuous_handle (self w) = nullptr →
     startContinuous env w = Done (ESP_ERR_INVALID_STATE, w)
     ∧ stopContinuous env w = Done (ESP_ERR_INVALID_STATE, w)).
Proof.
  split; intros Hnull;
    unfold readOneShotVoltage, readOneShot, startContinuous, stopContinuous;
    run_method; rewrite Hnull; split; reflexivity.
Qed.

Lemma unconfigured_adc_is_invalid_state_witness :
  readOneShot 1 6 uncalibrated fresh = Done ((ESP_ERR_INVALID_STATE, None), fresh)
  ∧ readOneShotVoltage 1 6 uncalibrated fresh
    = Done ((ESP_ERR_INVALID_STATE, None), fresh)
  ∧ startContinuous uncalibrated fresh = Done (ESP_ERR_INVALID_STATE, fresh)
  ∧ stopContinuous uncalibrated fresh = Done (ESP_ERR_INVALID_STATE, fresh).
Proof.
  destruct (unconfigured_adc_is_invalid_state uncalibrated fresh 1 6) as [Hread Hcont].
  destruct (Hread eq_refl) as [H1 H2]. destruct (Hcont eq_refl) as [H3 H4]. auto.
Defined.

(** X25: a [configOneShot] that fails on the channel leaves the unit
    behind.  When the SDK created the unit (storing a non-null handle)
    and then rejected the channel, [configOneShot] returns the SDK's
    error, but the handle stays in the manager; a later [readOneShot]
    therefore does not report [ESP_ERR_INVALID_STATE]: it asks the SDK
    for a sample on that handle and returns whatever the SDK answers. *)
Theorem failed_channel_leaves_unit (env : Env Call) (w : World Call ADCManager)
    (unit : adc_unit_t) (channel : adc_channel_t) (bitwidth : adc_bitwidth_t)
    (atten : adc_atten_t) (handle : ptr) :
  code (unit_reply env w unit) = ESP_OK →
  written (unit_reply env w unit) = Some handle →
  handle ≠ nullptr →
  code (channel_reply env w unit channel bitwidth atten) ≠ ESP_OK →
  ∃ w',
    configOneShot unit channel bitwidth atten env w
    = Done (code (channel_reply env w unit channel bitwidth atten), w')
    ∧ one_shot_unit_handle (self w') = handle
    ∧ ∀ unit' channel',
        readOneShot unit' channel' env w'
        = Done ((code (env (adc_oneshot_read handle channel' :: trace w')),
                 written (env (adc_oneshot_read handle channel' :: trace w'))),
                mkWorld (self w') (adc_oneshot_read handle channel' :: trace w')).
Proof.
  intros H1 Hh Hnn H2.
  destruct (configOneShot_effect env w unit channel bitwidth atten)
    as (w' & Hrun & Hunit & _).
  apply Z.eqb_eq in H1. apply Z.eqb_neq in H2. rewrite H1, H2 in Hrun. cbn in Hrun.
  exists w'. split; [exact Hrun|].
  assert (one_shot_unit_handle (self w') = handle) as Hhandle.
  { rewrite Hunit. unfold unit_handle. rewrite Hh. reflexivity. }
  split; [exact Hhandle|]. intros unit' channel'.
  unfold readOneShot. run_method. rewrite Hhandle.
  unfold is_null. unfold nullptr in Hnn. apply Z.eqb_neq in Hnn. rewrite Hnn.
  reflexivity.
Qed.

Lemma failed_channel_leaves_unit_witness :
  ∃ w' w'',
    configOneShot 1 6 12 3 bad_channel fresh = Done (258, w')
    ∧ one_shot_unit_handle (self w') = 1073700000
    ∧ readOneShot 1 6 bad_channel w' = Done ((ESP_OK, Some 2048), w'').
Proof.
  destruct (failed_channel_leaves_unit bad_channel fresh 1 6 12 3 1073700000
              eq_refl eq_refl ltac:(discriminate) ltac:(vm_compute; discriminate))
    as (w' & Hrun & Hhandle & Hread).
  exists w'. eexists. split; [exact Hrun|]. split; [exact Hhandle|].
  rewrite (Hread 1 6). reflexivity.
Defined.

(** *** The attenuation map *)

Lemma foldl_set_channel_atten atten channels :
  ∀ m ch,
    channel_atten_map (foldl (λ acc c, set_channel_atten c atten acc) m channels) !! ch
    = (if decide (ch ∈ channels) then Some atten else channel_atten_map m !! ch)
    ∧ continuous_handle (foldl (λ acc c, set_channel_atten c atten acc) m channels)
      = continuous_handle m
    ∧ continuous_running (foldl (λ acc c, set_channel_atten c atten acc) m channels)
      = continuous_running m.
Proof.
  induction channels as [|c cs IH]; intros m ch; cbn [foldl].
  - rewrite decide_False by (apply not_elem_of_nil). auto.
  - destruct (IH (set_channel_atten c atten m) ch) as (Hmap & Hh & Hr).
    rewrite Hmap, Hh, Hr. cbn. split; [|auto].
    destruct (decide (ch ∈ cs)) as [Hin|Hnin].
    + rewrite decide_True by (right; exact Hin). reflexivity.
    + destruct (decide (c = ch)) as [->|Hne].
      * rewrite lookup_insert_eq, decide_True by left. reflexivity.
      * rewrite lookup_insert_ne by exact Hne.
        rewrite decide_False; [reflexivity|].
        intros [Heq|Hin]%elem_of_cons;
          [apply Hne; symmetry; exact Heq | exact (Hnin Hin)].
Qed.

(** X26: [configContinuous] records the attenuation of every channel it
    is given as soon as the SDK has created the continuous handle, also
    when the configuration that follows is rejected and the method
    returns an error; channels that are not in the list keep their entry,
    and when the handle cannot be created the map is not touched. *)
Theorem configContinuous_records_attenuation (env : Env Call)
    (w w' : World Call ADCManager) (unit : adc_unit_t) (channels : list adc_channel_t)
    (bitwidth : adc_bitwidth_t) (atten : adc_atten_t)
    (sample_freq_hz sample_buffer_size : Z) (result : esp_err_t) :
  configContinuous unit channels bitwidth atten sample_freq_hz sample_buffer_size env w
    = Done (result, w') →
  ∀ ch,
    channel_atten_map (self w') !! ch
    = if code (env (adc_continuous_new_handle sample_buffer_size (sample_buffer_size / 2)
                    :: trace w)) =? ESP_OK
      then if decide (ch ∈ channels) then Some atten
           else channel_atten_map (self w) !! ch
      else channel_atten_map (self w) !! ch.
Proof.
  unfold configContinuous. run_method. cbn -[Z.eqb Z.div].
  match goal with |- context [negb (code ?r =? ESP_OK)] =>
    destruct (code r =? ESP_OK) end; cbn -[Z.eqb Z.div].
  - match goal with |- context [negb (code ?r =? ESP_OK)] =>
      destruct (code r =? ESP_OK) end; cbn -[Z.eqb Z.div];
      intros [= <- <-] ch; cbn;
      match goal with |- context [foldl ?f ?m channels] =>
        destruct (foldl_set_channel_atten atten channels m ch) as (-> & _) end;
      reflexivity.
  - intros [= <- <-] ch. reflexivity.
Qed.

Lemma configContinuous_records_attenuation_witness :
  ∃ w',
    configContinuous 1 [0; 3] 12 3 1000 1024 bad_pattern fresh = Done (258, w')
    ∧ channel_atten_map (self w') !! 0 = Some 3
    ∧ channel_atten_map (self w') !! 3 = Some 3
    ∧ channel_atten_map (self w') !! 1 = None.
Proof.
  eexists.
  assert (configContinuous 1 [0; 3] 12 3 1000 1024 bad_pattern fresh = Done (258, _))
    as Hrun by (vm_compute; reflexivity).
  pose proof (configContinuous_records_attenuation bad_pattern fresh _ 1 [0; 3] 12 3
                1000 1024 258 Hrun) as Hmap.
  split; [exact Hrun|]. split; [exact (Hmap 0)|]. split; [exact (Hmap 3) | exact (Hmap 1)].
Defined.

(** *** The observer *)

(** X27: the manager has one observer for converted samples.
    Registering a second one replaces the first: the conversion-done
    trampoline then invokes the second only, once, with the batch it was
    given, and reports it handled; after an empty function was registered
    it invokes nothing and reports the batch not handled. *)
Theorem registerCallback_replaces (env : Env Call) (w : World Call ADCManager)
    (first second : Observer) (event_data : ptr) :
  ∃ w',
    (registerCallback first;; registerCallback second;; continuousCallback event_data)
      env w
    = Done (bool_decide (is_Some second), w')
    ∧ self w' = set_user_callback second (self w)
    ∧ trace w'
      = match second with
        | Some f => [observer f event_data]
        | None => []
        end ++ trace w.
Proof.
  unfold registerCallback, continuousCallback. run_method. cbn.
  destruct second as [f|]; cbn; eexists; repeat split; reflexivity.
Qed.

End AdcMoreFacts.
